(** * vmodtool.py: the VMOD interface compiler of Varnish Cache

    A shallow embedding of [lib/libvcc/vmodtool.py] and the properties
    of its declaration parser, symbol table, alias resolver and
    protocol (JSON) generator.

    What is embedded: the tokenizer, the classes [CType], [arg],
    [ProtoType] and the stanza classes with all their methods,
    [vcc.parse], the generators of the documentation files
    ([vcc.rstfile]), of the header ([vcc.mkhfile]) and of the C file
    ([vcc.mkcfile], with [vcc.json] and [vcc.iter_json]), and
    [runmain].  The automake boilerplate, which is written on request
    only, the names of the files, their renaming at the end of the run
    and the options of the command line other than [--strict] are left
    out.

    Conventions of the embedding.
    - A Python [str] is a [string]; every [ascii] stands for one code
      point below 256.  Documents with code points above 255 are outside
      the model.
    - [None] is [None] of an [option]; a Python attribute that may hold
      [None] has an [option] type.
    - [exit(1)] (reached through [err]) is [Fatal]; an uncaught Python
      exception is [Raise]; output on stdout and stderr is not modelled.
    - Python lists that the code mutates are passed and returned
      explicitly. *)

From Stdlib Require Import String Ascii List Bool Arith Lia NArith ZArith.
From Stdlib Require Import DecimalString.
Import ListNotations.
Open Scope list_scope.
Open Scope string_scope.

(** ** Python strings *)

Module Py.

Definition nl : string := String "010" "".
Definition tab : string := String "009" "".
Definition dq : string := String "034" "".
Definition sq : string := "'".

(** [c.isspace()] on the code points below 256. *)
Definition isspace (c : ascii) : bool :=
  let n := nat_of_ascii c in
  (((9 <=? n) && (n <=? 13)) || ((28 <=? n) && (n <=? 32))
   || (n =? 133) || (n =? 160))%nat.

(** [s.find(c) >= 0] for a one-character [c]. *)
Fixpoint has_char (s : string) (c : ascii) : bool :=
  match s with
  | EmptyString => false
  | String d s' => Ascii.eqb d c || has_char s' c
  end.

Fixpoint lstrip (s : string) : string :=
  match s with
  | EmptyString => EmptyString
  | String c s' => if isspace c then lstrip s' else s
  end.

Fixpoint rstrip (s : string) : string :=
  match s with
  | EmptyString => EmptyString
  | String c s' =>
      match rstrip s' with
      | EmptyString => if isspace c then EmptyString else String c EmptyString
      | r => String c r
      end
  end.

Definition strip (s : string) : string := lstrip (rstrip s).

(** [sep.join(l)] *)
Definition join (sep : string) (l : list string) : string :=
  String.concat sep l.

(** [s.split(sep)] for a non-empty [sep]: [skip] counts the characters
    of a separator that was matched and is still being passed over. *)
Fixpoint split_aux (sep s : string) (skip : nat) (cur : string)
  : list string :=
  match s with
  | EmptyString => [cur]
  | String c s' =>
      match skip with
      | S k => split_aux sep s' k cur
      | O =>
          if String.prefix sep s
          then cur :: split_aux sep s' (String.length sep - 1) ""
          else split_aux sep s' 0 (cur ++ String c "")
      end
  end.

Definition split (s sep : string) : list string := split_aux sep s 0 "".

(** [s.replace(a, b)] for one-character [a] and [b]. *)
Fixpoint replace_char (s : string) (a b : ascii) : string :=
  match s with
  | EmptyString => EmptyString
  | String c s' =>
      String (if Ascii.eqb c a then b else c) (replace_char s' a b)
  end.

(** ["%s" % x] where [x] may be [None]. *)
Definition str (x : option string) : string :=
  match x with Some s => s | None => "None" end.

(** ["%d" % n] *)
Definition str_nat (n : nat) : string :=
  NilZero.string_of_uint (Nat.to_uint n).

(** [s[:n]] and [s[n:]] for [n >= 0]. *)
Definition take (n : nat) (s : string) : string := String.substring 0 n s.

Fixpoint drop (n : nat) (s : string) : string :=
  match n, s with
  | O, _ => s
  | S k, String _ s' => drop k s'
  | S _, EmptyString => EmptyString
  end.

(** [s.rfind(c)] for a one-character [c]: the last index, if any. *)
Fixpoint rfind (s : string) (c : ascii) : option nat :=
  match s with
  | EmptyString => None
  | String d s' =>
      match rfind s' c with
      | Some i => Some (S i)
      | None => if Ascii.eqb d c then Some 0 else None
      end
  end.

(** [s[0]] and [s[-1]] *)
Definition first (s : string) : option ascii := String.get 0 s.

Fixpoint last (s : string) : option ascii :=
  match s with
  | EmptyString => None
  | String c EmptyString => Some c
  | String _ s' => last s'
  end.

(** [s[1:-1]] *)
Definition strip_ends (s : string) : string :=
  String.substring 1 (String.length s - 2) s.

(** [len(s.expandtabs())]: the column reached after [s], with tab stops
    every 8 columns and the column reset by a newline or a carriage
    return. *)
Fixpoint expandtabs_aux (s : string) (linepos len : nat) : nat :=
  match s with
  | EmptyString => len
  | String c s' =>
      if Ascii.eqb c "009" then
        let incr := 8 - (linepos mod 8) in
        expandtabs_aux s' (linepos + incr) (len + incr)
      else if Ascii.eqb c "010" || Ascii.eqb c "013" then
        expandtabs_aux s' 0 (S len)
      else expandtabs_aux s' (S linepos) (S len)
  end.

Definition expandtabs_len (s : string) : nat := expandtabs_aux s 0 0.

End Py.

Import Py.

(** ** Outcomes of a run *)

Inductive PyExc : Set :=
| IndexError | AssertionError | TypeError | AttributeError.

Inductive result (A : Type) : Type :=
| Ok (a : A)
| Fatal (txt : string)      (* err(): "ERROR: txt" and exit(1) *)
| Raise (e : PyExc)         (* uncaught exception *)
| NoFuel.                   (* a bounded loop of the model ran out of rounds;
                               [ProtoType_init_fuel] shows that the loop
                               over the arguments never does *)

Arguments Ok {A} a.
Arguments Fatal {A} txt.
Arguments Raise {A} e.
Arguments NoFuel {A}.

Definition bind {A B} (m : result A) (k : A -> result B) : result B :=
  match m with
  | Ok a => k a
  | Fatal t => Fatal t
  | Raise e => Raise e
  | NoFuel => NoFuel
  end.

Notation "x <- m ;; k" := (bind m (fun x => k))
  (at level 61, m at next level, right associativity).
Notation "' p <- m ;; k" := (bind m (fun x => match x with p => k end))
  (at level 61, p pattern, m at next level, right associativity).

Definition when (b : bool) (m : result unit) : result unit :=
  if b then m else Ok tt.

Definition py_assert (b : bool) : result unit :=
  if b then Ok tt else Raise AssertionError.

Definition is_ok {A} (r : result A) : bool :=
  match r with Ok _ => true | _ => false end.

(** [wl.pop(0)] *)
Definition pop0 (wl : list string) : result (string * list string) :=
  match wl with
  | x :: wl' => Ok (x, wl')
  | [] => Raise IndexError
  end.

(** [wl[0]] *)
Definition head0 (wl : list string) : result string :=
  match wl with
  | x :: _ => Ok x
  | [] => Raise IndexError
  end.

(** ** Tables *)

Definition PRIVS : list (string * string) :=
  [ ("PRIV_CALL", "struct vmod_priv *");
    ("PRIV_VCL", "struct vmod_priv *");
    ("PRIV_TASK", "struct vmod_priv *");
    ("PRIV_TOP", "struct vmod_priv *") ].

Definition CTYPES : list (string * string) :=
  [ ("ACL", "VCL_ACL");
    ("BACKEND", "VCL_BACKEND");
    ("BLOB", "VCL_BLOB");
    ("BODY", "VCL_BODY");
    ("BOOL", "VCL_BOOL");
    ("BYTES", "VCL_BYTES");
    ("DURATION", "VCL_DURATION");
    ("ENUM", "VCL_ENUM");
    ("HEADER", "VCL_HEADER");
    ("HTTP", "VCL_HTTP");
    ("INT", "VCL_INT");
    ("IP", "VCL_IP");
    ("PROBE", "VCL_PROBE");
    ("REAL", "VCL_REAL");
    ("REGEX", "VCL_REGEX");
    ("STEVEDORE", "VCL_STEVEDORE");
    ("STRANDS", "VCL_STRANDS");
    ("STRING", "VCL_STRING");
    ("SUB", "VCL_SUB");
    ("TIME", "VCL_TIME");
    ("VOID", "VCL_VOID") ] ++ PRIVS.

(** [d.get(k)] on a table *)
Fixpoint dict_get {V} (d : list (string * V)) (k : string) : option V :=
  match d with
  | [] => None
  | (k', v) :: d' => if String.eqb k' k then Some v else dict_get d' k
  end.

(** A dict used as an insertion-ordered set of keys: [d[x] = True] and
    [x in d]. *)
Definition dict_mem (d : list string) (x : string) : bool :=
  existsb (String.eqb x) d.

Definition dict_add (d : list string) (x : string) : list string :=
  if dict_mem d x then d else d ++ [x].

(** ** Quoted tokens *)

Definition is_quote_char (c : ascii) : bool :=
  Ascii.eqb c "034" || Ascii.eqb c "'".

Definition is_quoted (txt : string) : bool :=
  (2 <? String.length txt)%nat
  && match first txt, last txt with
     | Some a, Some b => Ascii.eqb a b && is_quote_char a
     | _, _ => false
     end.

Definition unquote (txt : string) : result string :=
  _ <- py_assert (is_quoted txt) ;;
  Ok (strip_ends txt).

(** ** Tokenizer ([vcc.tokenize] with its default separators and quotes) *)

Definition seps : string := "[](){},=".
Definition quotes : string := dq ++ sq.

(** [out[-1] += c]; [out] is never empty where the tokenizer does this. *)
Fixpoint append_last (out : list string) (c : ascii) : list string :=
  match out with
  | [] => []
  | [t] => [t ++ String c ""]
  | t :: out' => t :: append_last out' c
  end.

Fixpoint tokenize_loop (txt : string) (quote : option ascii) (inside : bool)
  (out : list string) : list string :=
  match txt with
  | EmptyString => out
  | String c txt' =>
      match quote with
      | Some q =>
          if Ascii.eqb c q
          then tokenize_loop txt' None false (append_last out c)
          else tokenize_loop txt' quote inside (append_last out c)
      | None =>
          if isspace c then tokenize_loop txt' None false out
          else if has_char seps c
          then tokenize_loop txt' None false (out ++ [String c ""])
          else if has_char quotes c
          then tokenize_loop txt' (Some c) inside (out ++ [String c ""])
          else if inside
          then tokenize_loop txt' None inside (append_last out c)
          else tokenize_loop txt' None true (out ++ [String c ""])
      end
  end.

Definition tokenize (txt : string) : list string :=
  tokenize_loop txt None false [].

(** The same loop with the [IndexError] of [out[-1]] on an empty list
    made explicit; [tokenize_exn_total] shows that it never occurs, so
    that [tokenize] is the tokenizer. *)
Definition append_last_exn (out : list string) (c : ascii)
  : result (list string) :=
  match out with
  | [] => Raise IndexError
  | _ => Ok (append_last out c)
  end.

Fixpoint tokenize_loop_exn (txt : string) (quote : option ascii)
  (inside : bool) (out : list string) : result (list string) :=
  match txt with
  | EmptyString => Ok out
  | String c txt' =>
      match quote with
      | Some q =>
          out <- append_last_exn out c ;;
          if Ascii.eqb c q
          then tokenize_loop_exn txt' None false out
          else tokenize_loop_exn txt' quote inside out
      | None =>
          if isspace c then tokenize_loop_exn txt' None false out
          else if has_char seps c
          then tokenize_loop_exn txt' None false (out ++ [String c ""])
          else if has_char quotes c
          then tokenize_loop_exn txt' (Some c) inside (out ++ [String c ""])
          else if inside
          then out <- append_last_exn out c ;;
               tokenize_loop_exn txt' None inside out
          else tokenize_loop_exn txt' None true (out ++ [String c ""])
      end
  end.

Definition tokenize_exn (txt : string) : result (list string) :=
  tokenize_loop_exn txt None false [].

(** ** The regular expressions of the tool

    Each pattern is anchored by [re.match] and [$]; [$] matches at the
    end of the string and before a newline that ends it. *)

Definition is_alpha_ (c : ascii) : bool :=
  let n := nat_of_ascii c in
  (((65 <=? n) && (n <=? 90)) || ((97 <=? n) && (n <=? 122)) || (n =? 95))%nat.

Definition is_letter (c : ascii) : bool :=
  let n := nat_of_ascii c in
  (((65 <=? n) && (n <=? 90)) || ((97 <=? n) && (n <=? 122)))%nat.

Definition is_word (c : ascii) : bool :=
  let n := nat_of_ascii c in
  is_alpha_ c || ((48 <=? n) && (n <=? 57))%nat.

(** The rest of the string after the longest run of [[a-zA-Z0-9_]]. *)
Fixpoint skip_word (s : string) : string :=
  match s with
  | EmptyString => EmptyString
  | String c s' => if is_word c then skip_word s' else s
  end.

Definition at_end (s : string) : bool :=
  String.eqb s "" || String.eqb s nl.

(** [^[a-zA-Z.][a-zA-Z0-9_]*$] *)
Definition re_bname (s : string) : bool :=
  match s with
  | EmptyString => false
  | String c s' => (is_letter c || Ascii.eqb c ".") && at_end (skip_word s')
  end.

(** [^[a-zA-Z_][a-zA-Z0-9_]*$] *)
Definition re_cname (s : string) : bool :=
  match s with
  | EmptyString => false
  | String c s' => is_alpha_ c && at_end (skip_word s')
  end.

(** [^\.?[a-zA-Z_][a-zA-Z0-9_]*$] *)
Definition re_alias (s : string) : bool :=
  match s with
  | String "." s' => re_cname s'
  | _ => re_cname s
  end.

(** [^[a-zA-Z_][a-zA-Z0-9_]*\.[a-zA-Z_][a-zA-Z0-9_]*$] *)
Definition re_obj_method (s : string) : bool :=
  match s with
  | EmptyString => false
  | String c s' =>
      is_alpha_ c
      && match skip_word s' with
         | String "." r => re_cname r
         | _ => false
         end
  end.

(** ** Layout helpers *)

(** The [while len(t.expandtabs()) < 40: t += '\t'] loop of
    [fmt_cstruct]; every tab widens the line, so 40 rounds are enough. *)
Fixpoint pad_tabs (fuel : nat) (t : string) : string :=
  match fuel with
  | O => t
  | S fuel' =>
      if (expandtabs_len t <? 40)%nat then pad_tabs fuel' (t ++ tab) else t
  end.

(** [fmt_cstruct(fo, a, b)]: the text written to [fo]. *)
Definition fmt_cstruct (a b : string) : string :=
  let t := tab ++ a in
  let t := if (40 <? expandtabs_len t)%nat
           then t ++ nl ++ tab ++ tab ++ tab ++ tab ++ tab
           else t ++ tab in
  let t := pad_tabs 40 t in
  t ++ b ++ nl.

(** The loop of [lwrap]: [ll] is the list of lines, [p] the indent of the
    next one.  Every round removes at least one character of [s]. *)
Fixpoint lwrap_loop (fuel : nat) (width : nat) (s p : string)
  (ll : list string) : list string * string * string :=
  match fuel with
  | O => (ll, s, p)
  | S fuel' =>
      if (width <? String.length s)%nat then
        let y := match rfind (take width s) "," with
                 | Some i => Some i
                 | None => rfind (take width s) "("
                 end in
        match y with
        | None => (ll, s, p)
        | Some y =>
            lwrap_loop fuel' width (lstrip (drop (y + 1) s)) "    "
              (ll ++ [(p ++ take (y + 1) s)%string])%list
        end
      else (ll, s, p)
  end.

Definition lwrap_width (s : string) (width : nat) : string :=
  let '(ll, s, p) := lwrap_loop (String.length s) width s "" [] in
  let ll := if String.eqb s "" then ll else (ll ++ [(p ++ s)%string])%list in
  join nl ll ++ nl.

Definition lwrap (s : string) : string := lwrap_width s 64.

Set Warnings "-register-all".

(** ** [hashlib.sha256]

    The digest of the standard library, over bytes given as numbers
    below 256; words are numbers below [2^32]. *)

Module SHA256.

Local Open Scope N_scope.

Definition mask32 : N := 0xffffffff.
Definition add32 (a b : N) : N := N.land (a + b) mask32.
Definition rotr (n x : N) : N :=
  N.lor (N.shiftr x n) (N.land (N.shiftl x (32 - n)) mask32).
Definition not32 (x : N) : N := N.lxor x mask32.
Definition Ch (x y z : N) : N := N.lxor (N.land x y) (N.land (not32 x) z).
Definition Maj (x y z : N) : N :=
  N.lxor (N.lxor (N.land x y) (N.land x z)) (N.land y z).
Definition bsig0 (x : N) : N :=
  N.lxor (N.lxor (rotr 2 x) (rotr 13 x)) (rotr 22 x).
Definition bsig1 (x : N) : N :=
  N.lxor (N.lxor (rotr 6 x) (rotr 11 x)) (rotr 25 x).
Definition ssig0 (x : N) : N :=
  N.lxor (N.lxor (rotr 7 x) (rotr 18 x)) (N.shiftr x 3).
Definition ssig1 (x : N) : N :=
  N.lxor (N.lxor (rotr 17 x) (rotr 19 x)) (N.shiftr x 10).

(** The round constants and the initial state, in decimal. *)
Definition K : list N :=
  [ 1116352408; 1899447441; 3049323471; 3921009573;
    961987163; 1508970993; 2453635748; 2870763221;
    3624381080; 310598401; 607225278; 1426881987;
    1925078388; 2162078206; 2614888103; 3248222580;
    3835390401; 4022224774; 264347078; 604807628;
    770255983; 1249150122; 1555081692; 1996064986;
    2554220882; 2821834349; 2952996808; 3210313671;
    3336571891; 3584528711; 113926993; 338241895;
    666307205; 773529912; 1294757372; 1396182291;
    1695183700; 1986661051; 2177026350; 2456956037;
    2730485921; 2820302411; 3259730800; 3345764771;
    3516065817; 3600352804; 4094571909; 275423344;
    430227734; 506948616; 659060556; 883997877;
    958139571; 1322822218; 1537002063; 1747873779;
    1955562222; 2024104815; 2227730452; 2361852424;
    2428436474; 2756734187; 3204031479; 3329325298 ].

Definition H0 : list N :=
  [ 1779033703; 3144134277; 1013904242; 2773480762;
    1359893119; 2600822924; 528734635; 1541459225 ].

(** The message schedule, latest word first. *)
Fixpoint schedule (k : nat) (r : list N) : list N :=
  match k with
  | O => r
  | S k' =>
      let w := add32 (add32 (ssig1 (nth 1 r 0)) (nth 6 r 0))
                 (add32 (ssig0 (nth 14 r 0)) (nth 15 r 0)) in
      schedule k' (w :: r)
  end.

Definition round (s : list N) (kw : N * N) : list N :=
  match s with
  | [a; b; c; d; e; f; g; h] =>
      let t1 := add32 (add32 (add32 h (bsig1 e)) (add32 (Ch e f g) (fst kw)))
                  (snd kw) in
      let t2 := add32 (bsig0 a) (Maj a b c) in
      [add32 t1 t2; a; b; c; add32 d t1; e; f; g]
  | _ => s
  end.

Definition compress (h : list N) (block : list N) : list N :=
  let w := rev (schedule 48 (rev block)) in
  let s := fold_left round (combine K w) h in
  map (fun p => add32 (fst p) (snd p)) (combine h s).

Definition be_bytes (n : nat) (x : N) : list N :=
  map (fun i => N.land (N.shiftr x (8 * N.of_nat i)) 0xff) (rev (seq 0 n)).

Definition pad (msg : list N) : list N :=
  let l := List.length msg in
  (msg ++ [0x80] ++ repeat 0 ((119 - Nat.modulo l 64) mod 64)
     ++ be_bytes 8 (8 * N.of_nat l))%list.

Fixpoint words (bytes : list N) : list N :=
  match bytes with
  | b0 :: b1 :: b2 :: b3 :: rest =>
      (N.shiftl b0 24 + N.shiftl b1 16 + N.shiftl b2 8 + b3) :: words rest
  | _ => []
  end.

(** One word at a time; a block is compressed when its sixteenth word
    arrives. *)
Definition feed (st : list N * list N) (w : N) : list N * list N :=
  let '(h, buf) := st in
  let buf := (buf ++ [w])%list in
  if Nat.eqb (List.length buf) 16 then (compress h buf, []) else (h, buf).

Definition digest_words (msg : list N) : list N :=
  fst (fold_left feed (words (pad msg)) (H0, [])).

Definition hex_digit (d : N) : ascii :=
  if d <? 10 then ascii_of_N (48 + d) else ascii_of_N (87 + d).

Definition hex32 (x : N) : string :=
  string_of_list_ascii
    (map (fun i => hex_digit (N.land (N.shiftr x (4 * N.of_nat i)) 0xf))
       (rev (seq 0 8))).

Definition hexdigest (msg : list N) : string :=
  String.concat "" (map hex32 (digest_words msg)).

End SHA256.

(** [s.encode('utf-8')] on code points below 256. *)
Fixpoint utf8_encode (s : string) : list N :=
  match s with
  | EmptyString => []
  | String c s' =>
      let n := N_of_ascii c in
      if (n <? 128)%N then n :: utf8_encode s'
      else (192 + N.shiftr n 6)%N :: (128 + N.land n 63)%N :: utf8_encode s'
  end.

(** ** [json.dumps(v, indent=2, separators=(",", ": "))] *)

Inductive json : Type :=
| JNull
| JBool (b : bool)
| JStr (s : string)
| JList (l : list json)
| JDict (kv : list (string * json)).

Module Json.

Definition hex4 (n : N) : string :=
  string_of_list_ascii
    (map (fun i => SHA256.hex_digit
                     (N.land (N.shiftr n (4 * N.of_nat i)) 0xf))
       (rev (seq 0 4))).

(** One character of a string literal, with [ensure_ascii]. *)
Definition escape (c : ascii) : string :=
  let n := N_of_ascii c in
  if (n =? 92)%N then "\\"
  else if (n =? 34)%N then "\" ++ dq
  else if (n =? 8)%N then "\b"
  else if (n =? 12)%N then "\f"
  else if (n =? 10)%N then "\n"
  else if (n =? 13)%N then "\r"
  else if (n =? 9)%N then "\t"
  else if ((32 <=? n) && (n <=? 126))%N then String c ""
  else "\u" ++ hex4 n.

Fixpoint escape_all (s : string) : string :=
  match s with
  | EmptyString => EmptyString
  | String c s' => escape c ++ escape_all s'
  end.

Definition encode_str (s : string) : string := dq ++ escape_all s ++ dq.

Fixpoint indent (level : nat) : string :=
  match level with
  | O => ""
  | S l => "  " ++ indent l
  end.

(** [level] is the indent level of the value itself. *)
Fixpoint encode (v : json) (level : nat) : string :=
  match v with
  | JNull => "null"
  | JBool true => "true"
  | JBool false => "false"
  | JStr s => encode_str s
  | JList [] => "[]"
  | JList l =>
      let newline_indent := nl ++ indent (S level) in
      "[" ++ newline_indent
      ++ join ("," ++ newline_indent)
           (map (fun x => encode x (S level)) l)
      ++ nl ++ indent level ++ "]"
  | JDict [] => "{}"
  | JDict kv =>
      let newline_indent := nl ++ indent (S level) in
      "{" ++ newline_indent
      ++ join ("," ++ newline_indent)
           (map (fun p => encode_str (fst p) ++ ": "
                          ++ encode (snd p) (S level)) kv)
      ++ nl ++ indent level ++ "}"
  end.

Definition dumps (v : json) : string := encode v 0.

End Json.

(** ** Lines of a text *)

(** [s.splitlines()] on code points below 256: [cur] is the line being
    read, [open] tells whether it has started. *)
Definition is_linebreak (c : ascii) : bool :=
  let n := nat_of_ascii c in
  (((10 <=? n) && (n <=? 13)) || ((28 <=? n) && (n <=? 30)) || (n =? 133))%nat.

Fixpoint splitlines_aux (s : string) (cur : string) (started : bool)
  : list string :=
  match s with
  | EmptyString => if started then [cur] else []
  | String c s' =>
      if is_linebreak c then
        match c, s' with
        | "013"%char, String "010" s'' => cur :: splitlines_aux s'' "" false
        | _, _ => cur :: splitlines_aux s' "" false
        end
      else splitlines_aux s' (cur ++ String c "") true
  end.

Definition splitlines (s : string) : list string := splitlines_aux s "" false.

(** The lines seen by [for i in open(fn)]: a carriage return, alone or
    before a newline, reads as a newline, and every line keeps its
    newline. *)
Fixpoint file_lines_aux (s : string) (cur : string) (started : bool)
  : list string :=
  match s with
  | EmptyString => if started then [cur] else []
  | String c s' =>
      if Ascii.eqb c "010" then (cur ++ nl) :: file_lines_aux s' "" false
      else if Ascii.eqb c "013" then
        match s' with
        | String "010" s'' => (cur ++ nl) :: file_lines_aux s'' "" false
        | _ => (cur ++ nl) :: file_lines_aux s' "" false
        end
      else file_lines_aux s' (cur ++ String c "") true
  end.

Definition file_lines (s : string) : list string := file_lines_aux s "" false.

(** ** Errors and warnings *)

Section Parser.

(** [opts.strict], the [--strict] flag of the command line. *)
Variable opts_strict : bool.

(** [err(txt, warn)]: fatal when the run is strict or the defect is not
    of the warning class; otherwise a warning is printed and the caller
    goes on. *)
Definition err (txt : string) (warn : bool) : result unit :=
  if opts_strict || negb warn then Fatal txt else Ok tt.

(** ** Value kinds and arguments: classes [CType] and [arg] *)

Record CType : Type := mkCType {
  nm : option string;
  defval : option string;
  spec : option (list string);
  opt : bool;
  vt : string;
  ct : option string;
  nm2 : option string       (* set by [ProtoType.__init__] on arguments *)
}.

Definition set_nm (c : CType) (x : option string) : CType :=
  mkCType x (defval c) (spec c) (opt c) (vt c) (ct c) (nm2 c).
Definition set_defval (c : CType) (x : option string) : CType :=
  mkCType (nm c) x (spec c) (opt c) (vt c) (ct c) (nm2 c).
Definition set_spec (c : CType) (x : option (list string)) : CType :=
  mkCType (nm c) (defval c) x (opt c) (vt c) (ct c) (nm2 c).
Definition set_opt (c : CType) (x : bool) : CType :=
  mkCType (nm c) (defval c) (spec c) x (vt c) (ct c) (nm2 c).
Definition set_nm2 (c : CType) (x : option string) : CType :=
  mkCType (nm c) (defval c) (spec c) (opt c) (vt c) (ct c) x.

(** The loop of [CType.add_spec], after the opening brace was popped:
    the literals read so far, the module-wide enum names and the
    remaining words. *)
Fixpoint add_spec_loop (wl : list string) (sp enums : list string)
  : result (list string * list string * list string) :=
  match wl with
  | [] => Raise IndexError
  | x :: wl1 =>
      x <- (if is_quoted x then unquote x else Ok x) ;;
      _ <- py_assert (negb (String.eqb x "")) ;;
      let sp := (sp ++ [x])%list in
      let enums := dict_add enums x in
      match wl1 with
      | [] => Raise IndexError
      | w :: wl2 =>
          if String.eqb w "}" then Ok (sp, enums, wl2)
          else
            _ <- py_assert (String.eqb w ",") ;;
            add_spec_loop wl2 sp enums
      end
  end.

Definition add_spec (c : CType) (wl enums : list string)
  : result (CType * list string * list string) :=
  _ <- py_assert (String.eqb (vt c) "ENUM") ;;
  '(w, wl) <- pop0 wl ;;
  _ <- py_assert (String.eqb w "{") ;;
  '(sp, enums, wl) <- add_spec_loop wl [] enums ;;
  Ok (set_spec c (Some sp), wl, enums).

(** [CType.__init__(wl, enums)]: the new object, the words left in [wl]
    and the updated [enums]. *)
Definition CType_init (wl enums : list string)
  : result (CType * list string * list string) :=
  '(v, wl) <- pop0 wl ;;
  let c := mkCType None None None false v (dict_get CTYPES v) None in
  _ <- when (match ct c with None => true | Some _ => false end)
         (err ("Expected type got '" ++ v ++ "'") false) ;;
  match wl with
  | w :: _ =>
      if String.eqb w "{" then
        _ <- when (negb (String.eqb (vt c) "ENUM"))
               (err "Only ENUMs take {...} specs" false) ;;
        add_spec c wl enums
      else Ok (c, wl, enums)
  | [] => Ok (c, wl, enums)
  end.

(** [arg.__init__(wl, argnames, enums, end)] *)
Definition arg_init (wl argnames enums : list string) (end_ : string)
  : result (CType * list string * list string * list string) :=
  '(c, wl, enums) <- CType_init wl enums ;;
  h <- head0 wl ;;
  if String.eqb h end_ then Ok (c, wl, argnames, enums)
  else
    '(x, wl) <- pop0 wl ;;
    _ <- when (dict_mem argnames x)
           (err ("Duplicate argument name '" ++ x ++ "'") false) ;;
    let argnames := dict_add argnames x in
    let c := set_nm c (Some x) in
    h <- head0 wl ;;
    if String.eqb h end_ then Ok (c, wl, argnames, enums)
    else
      '(x, wl) <- pop0 wl ;;
      _ <- when (negb (String.eqb x "="))
             (err ("Expected '=' got '" ++ x ++ "'") false) ;;
      '(x, wl) <- pop0 wl ;;
      x <- (if String.eqb (vt c) "ENUM"
            then if is_quoted x then unquote x else Ok x
            else Ok x) ;;
      Ok (set_defval c (Some x), wl, argnames, enums).

(** [CType.jsonproto] and [arg.jsonproto] are given with the protocol
    generator below. *)

(** ** Signatures: class [ProtoType]

    The attribute [st], the stanza that owns the signature, is left
    out: it is read for [st.toks], given to [ProtoType_init], and for
    [st.vcc], given to the methods that need it. *)

Record ProtoType : Type := mkProtoType {
  obj : option string;
  args : list CType;
  argstruct : bool;
  retval : CType;
  bname : string;
  name : string
}.

Definition set_obj (p : ProtoType) (x : option string) : ProtoType :=
  mkProtoType x (args p) (argstruct p) (retval p) (bname p) (name p).
Definition set_args (p : ProtoType) (x : list CType) : ProtoType :=
  mkProtoType (obj p) x (argstruct p) (retval p) (bname p) (name p).
Definition set_argstruct (p : ProtoType) (x : bool) : ProtoType :=
  mkProtoType (obj p) (args p) x (retval p) (bname p) (name p).
Definition set_name (p : ProtoType) (x : string) : ProtoType :=
  mkProtoType (obj p) (args p) (argstruct p) (retval p) (bname p) x.

(** [wl[-1]] and [wl[-1] = x] on a list of words *)
Definition last_word (wl : list string) : result string :=
  match wl with
  | [] => Raise IndexError
  | _ => Ok (List.last wl "")
  end.

Definition set_last (wl : list string) (x : string) : list string :=
  (removelast wl ++ [x])%list.

(** The [while wl:] loop of [ProtoType.__init__]: one round reads the
    comma and one argument.  Every round pops a word, so [length wl]
    rounds are enough. *)
Fixpoint args_loop (fuel : nat) (wl names enums : list string) (n : nat)
  (al : list CType) (ast : bool)
  : result (list CType * bool * list string) :=
  match wl with
  | [] => Ok (al, ast, enums)
  | _ =>
      match fuel with
      | O => NoFuel
      | S fuel' =>
          let n := S n in
          '(x, wl) <- pop0 wl ;;
          _ <- when (negb (String.eqb x ","))
                 (err ("Expected ',' found '" ++ x ++ "'") false) ;;
          match wl with
          | [] => Ok (al, ast, enums)
          | w :: _ =>
              '(t, wl, names, enums, ast) <-
                (if String.eqb w "[" then
                   '(_, wl) <- pop0 wl ;;
                   '(t, wl, names, enums) <- arg_init wl names enums "]" ;;
                   _ <- when (match nm t with None => true | _ => false end)
                          (err "Optional arguments must have names" false) ;;
                   let t := set_opt t true in
                   '(x, wl) <- pop0 wl ;;
                   _ <- when (negb (String.eqb x "]"))
                          (err ("Expected ']' found '" ++ x ++ "'") false) ;;
                   Ok (t, wl, names, enums, true)
                 else
                   '(t, wl, names, enums) <- arg_init wl names enums "," ;;
                   Ok (t, wl, names, enums, ast)) ;;
              _ <- when (String.eqb (vt t) "VOID")
                     (err ("arguments can not be of type '" ++ vt t ++ "'")
                        false) ;;
              let t := set_nm2 t (match nm t with
                                  | None => Some ("arg" ++ str_nat n)
                                  | Some x => Some x
                                  end) in
              args_loop fuel' wl names enums n (al ++ [t])%list ast
          end
      end
  end.

(** [ProtoType.cname(pfx=False)] *)
Definition cname (p : ProtoType) : string := replace_char (name p) "." "_".

(** [ProtoType.__init__(st, retval, prefix)]: [toks] is [st.toks] and
    [enums] is [st.vcc.enums]; the result is the new object and the
    updated [enums]. *)
Definition ProtoType_init (toks enums : list string) (with_retval : bool)
  (prefix : string) : result (ProtoType * list string) :=
  let wl := List.tl toks in
  '(rv, wl, enums) <-
    (if with_retval then CType_init wl enums
     else '(c, _, enums) <- CType_init ["VOID"] enums ;; Ok (c, wl, enums)) ;;
  '(bn, wl) <- pop0 wl ;;
  _ <- when (negb (re_bname bn)) (err (bn ++ "(): Illegal name" ++ nl) false) ;;
  let p := mkProtoType None [] false rv bn (prefix ++ bn) in
  _ <- when (negb (re_cname (cname p)))
         (err (cname p ++ "(): Illegal C-name" ++ nl) false) ;;
  if match wl with
     | [a; b] => String.eqb a "(" && String.eqb b ")"
     | _ => false
     end
  then Ok (p, enums)
  else
      h <- head0 wl ;;
      _ <- when (negb (String.eqb h "("))
             (err ("Syntax error: Expected '(', got '" ++ h ++ "'") false) ;;
      let wl := "," :: List.tl wl in
      l <- last_word wl ;;
      _ <- when (negb (String.eqb l ")"))
             (err ("Syntax error: Expected ')', got '" ++ l ++ "'") false) ;;
      let wl := set_last wl "," in
      '(al, ast, enums) <- args_loop (List.length wl) wl [] enums 0 [] false ;;
      Ok (set_argstruct (set_args p al) ast, enums).

(** ** Stanzas and the processing context: classes [Stanza] and [vcc] *)

(** The stanza classes that end up in [vcc.contents], with the
    attributes their own [parse] adds. *)
Inductive StanzaClass : Type :=
| ModuleStanza
| ABIStanza
| PrefixStanza
| SynopsisStanza
| EventStanza (event_func : string)
| FunctionStanza
| ObjectStanza (init fini : ProtoType)
| AliasStanza (sym_alias doc_alias sym_name doc_name : string).

(** A [MethodStanza]; it lives in the [methods] list of its object,
    the only list [MethodStanza.parse] appends to. *)
Record MethodStanza : Type := mkMethodStanza {
  m_toks : list string;
  m_doc : list string;
  m_rstlbl : option string;
  m_proto : option ProtoType;
  m_pfx : string
}.

Record Stanza : Type := mkStanza {
  cls : StanzaClass;
  toks : list string;
  doc : list string;
  rstlbl : option string;
  null_ok : bool;
  methods : option (list MethodStanza);
  proto : option ProtoType
}.

(** [commit_files], the names of the files to rename at the end, is
    left out. *)
Record vcc : Type := mkvcc {
  inputfile : string;
  rstdir : string;
  pfx : string;
  sympfx : string;
  contents : list Stanza;
  copyright : string;
  enums : list string;
  strict_abi : option bool;
  vrt_major : string;
  vrt_minor : string;
  auto_synopsis : option bool;
  modname : option string;
  csn : option string;
  mansection : option string;   (* unset until a $Module is parsed *)
  moddesc : option string;      (* unset until a $Module is parsed *)
  file_id : option string       (* unset until [parse] ends *)
}.

(** [vcc.__init__(inputvcc, rstdir, outputprefix)] *)
Definition vcc_init (inputvcc rstdir_ outputprefix : string) : vcc :=
  mkvcc inputvcc rstdir_ outputprefix "vmod_" [] "" [] (Some true) "0" "0"
    (Some true) None None None None None.

Definition set_sympfx (v : vcc) (x : string) : vcc :=
  mkvcc (inputfile v) (rstdir v) (pfx v) x (contents v) (copyright v)
    (enums v) (strict_abi v) (vrt_major v) (vrt_minor v) (auto_synopsis v)
    (modname v) (csn v) (mansection v) (moddesc v) (file_id v).
Definition set_contents (v : vcc) (x : list Stanza) : vcc :=
  mkvcc (inputfile v) (rstdir v) (pfx v) (sympfx v) x (copyright v)
    (enums v) (strict_abi v) (vrt_major v) (vrt_minor v) (auto_synopsis v)
    (modname v) (csn v) (mansection v) (moddesc v) (file_id v).
Definition set_copyright (v : vcc) (x : string) : vcc :=
  mkvcc (inputfile v) (rstdir v) (pfx v) (sympfx v) (contents v) x
    (enums v) (strict_abi v) (vrt_major v) (vrt_minor v) (auto_synopsis v)
    (modname v) (csn v) (mansection v) (moddesc v) (file_id v).
Definition set_enums (v : vcc) (x : list string) : vcc :=
  mkvcc (inputfile v) (rstdir v) (pfx v) (sympfx v) (contents v) (copyright v)
    x (strict_abi v) (vrt_major v) (vrt_minor v) (auto_synopsis v)
    (modname v) (csn v) (mansection v) (moddesc v) (file_id v).
Definition set_strict_abi (v : vcc) (x : option bool) : vcc :=
  mkvcc (inputfile v) (rstdir v) (pfx v) (sympfx v) (contents v) (copyright v)
    (enums v) x (vrt_major v) (vrt_minor v) (auto_synopsis v)
    (modname v) (csn v) (mansection v) (moddesc v) (file_id v).
Definition set_vrt (v : vcc) (major minor : string) : vcc :=
  mkvcc (inputfile v) (rstdir v) (pfx v) (sympfx v) (contents v) (copyright v)
    (enums v) (strict_abi v) major minor (auto_synopsis v)
    (modname v) (csn v) (mansection v) (moddesc v) (file_id v).
Definition set_auto_synopsis (v : vcc) (x : option bool) : vcc :=
  mkvcc (inputfile v) (rstdir v) (pfx v) (sympfx v) (contents v) (copyright v)
    (enums v) (strict_abi v) (vrt_major v) (vrt_minor v) x
    (modname v) (csn v) (mansection v) (moddesc v) (file_id v).
Definition set_module (v : vcc) (n s d : option string) : vcc :=
  mkvcc (inputfile v) (rstdir v) (pfx v) (sympfx v) (contents v) (copyright v)
    (enums v) (strict_abi v) (vrt_major v) (vrt_minor v) (auto_synopsis v)
    n (csn v) s d (file_id v).
Definition set_csn (v : vcc) (x : option string) : vcc :=
  mkvcc (inputfile v) (rstdir v) (pfx v) (sympfx v) (contents v) (copyright v)
    (enums v) (strict_abi v) (vrt_major v) (vrt_minor v) (auto_synopsis v)
    (modname v) x (mansection v) (moddesc v) (file_id v).
Definition set_file_id (v : vcc) (x : option string) : vcc :=
  mkvcc (inputfile v) (rstdir v) (pfx v) (sympfx v) (contents v) (copyright v)
    (enums v) (strict_abi v) (vrt_major v) (vrt_minor v) (auto_synopsis v)
    (modname v) (csn v) (mansection v) (moddesc v) x.

(** [vcc.contents.append(st)] *)
Definition contents_append (v : vcc) (st : Stanza) : vcc :=
  set_contents v (contents v ++ [st])%list.

(** A string operand that must not be [None]: ["..." + x]. *)
Definition need_str (x : option string) : result string :=
  match x with
  | Some s => Ok s
  | None => Raise TypeError
  end.

(** An object whose attribute is read must not be [None]. *)
Definition need_obj {A} (x : option A) : result A :=
  match x with
  | Some a => Ok a
  | None => Raise AttributeError
  end.

(** An attribute that is read must have been set. *)
Definition need_attr {A} (x : option A) : result A :=
  match x with
  | Some a => Ok a
  | None => Raise AttributeError
  end.

(** [for x in l: m(x)] with the texts written concatenated. *)
Fixpoint write_each {A} (f : A -> result string) (l : list A) : result string :=
  match l with
  | [] => Ok ""
  | x :: l' =>
      s <- f x ;;
      r <- write_each f l' ;;
      Ok (s ++ r)
  end.

(** ** The methods of [ProtoType] that emit text *)

(** [cname(pfx=True)] *)
Definition cname_pfx (v : vcc) (p : ProtoType) : string := sympfx v ++ cname p.

Definition argstructname (p : ProtoType) : string :=
  "struct VARGS(" ++ cname p ++ ")".

(** The list [ll] of native argument types built by [ProtoType.proto]:
    the implicit arguments [eargs] of the caller, then either a pointer
    to the argument struct or the native type of each declared
    argument. *)
Definition proto_ll (p : ProtoType) (eargs : list string)
  : list (option string) :=
  if argstruct p
  then (map Some eargs ++ [Some (argstructname p ++ "*")%string])%list
  else (map Some eargs ++ map ct (args p))%list.

(** [", ".join(ll)]: every item must be a string. *)
Fixpoint need_all (l : list (option string)) : result (list string) :=
  match l with
  | [] => Ok []
  | x :: l' =>
      s <- need_str x ;;
      r <- need_all l' ;;
      Ok (s :: r)
  end.

(** [ProtoType.proto(args, name)] *)
Definition ProtoType_proto (p : ProtoType) (eargs : list string)
  (nm_ : string) : result string :=
  rct <- need_str (ct (retval p)) ;;
  let s := rct ++ " " ++ nm_ ++ "(" in
  ll <- need_all (proto_ll p eargs) ;;
  Ok (s ++ join ", " ll ++ ");").

Definition typedef_name (v : vcc) (p : ProtoType) : result string :=
  m <- need_str (modname v) ;;
  Ok ("td_" ++ sympfx v ++ m ++ "_" ++ cname p).

Definition typedef (v : vcc) (p : ProtoType) (eargs : list string)
  : result string :=
  n <- typedef_name v p ;;
  s <- ProtoType_proto p eargs n ;;
  Ok ("typedef " ++ s).

(** The two loops of [ProtoType.argstructure], each adding to the
    text [s]. *)
Fixpoint argstructure_valid (al : list CType) (s : string) : result string :=
  match al with
  | [] => Ok s
  | i :: al' =>
      if opt i then
        _ <- py_assert (match nm i with Some _ => true | None => false end) ;;
        argstructure_valid al'
          (s ++ tab ++ "char" ++ tab ++ tab ++ tab ++ "valid_" ++ str (nm i)
             ++ ";" ++ nl)
      else argstructure_valid al' s
  end.

Fixpoint argstructure_fields (al : list CType) (s : string) : result string :=
  match al with
  | [] => Ok s
  | i :: al' =>
      c <- need_str (ct i) ;;
      let s := s ++ tab ++ c in
      let s := if (String.length c <? 8)%nat then s ++ tab else s in
      let s := if (String.length c <? 16)%nat then s ++ tab else s in
      n2 <- need_attr (nm2 i) ;;
      argstructure_fields al' (s ++ tab ++ n2 ++ ";" ++ nl)
  end.

Definition argstructure (p : ProtoType) : result string :=
  let s := nl ++ argstructname p ++ " {" ++ nl in
  s <- argstructure_valid (args p) s ;;
  s <- argstructure_fields (args p) s ;;
  Ok (s ++ "};" ++ nl).

(** The second argument of [cproto] and [cstuff]: ['h'], ['c'] or ['o']. *)
Inductive Where : Set := Wh | Wc | Wo.

(** [ProtoType.cproto(eargs, where)] *)
Definition cproto (v : vcc) (p : ProtoType) (eargs : list string) (w : Where)
  : result string :=
  match w with
  | Wh =>
      s <- (if argstruct p then argstructure p else Ok "") ;;
      t <- ProtoType_proto p eargs (cname_pfx v p) ;;
      Ok (s ++ lwrap t)
  | Wc =>
      t <- typedef v p eargs ;;
      Ok (lwrap t)
  | Wo =>
      s <- (if argstruct p then argstructure p else Ok "") ;;
      t <- typedef v p eargs ;;
      Ok (s ++ lwrap t)
  end.

(** ** The protocol entries *)

Definition json_opt_str (x : option string) : json :=
  match x with
  | Some s => JStr s
  | None => JNull
  end.

Definition json_opt_list (x : option (list string)) : json :=
  match x with
  | Some l => JList (map JStr l)
  | None => JNull
  end.

(** [while l[-1] is None: l.pop(-1)], on the reversed list. *)
Fixpoint pop_None_rev (r : list json) : result (list json) :=
  match r with
  | [] => Raise IndexError
  | JNull :: r' => pop_None_rev r'
  | _ => Ok r
  end.

Definition pop_None (l : list json) : result (list json) :=
  r <- pop_None_rev (rev l) ;;
  Ok (rev r).

(** [CType.jsonproto(jl)]: the item appended to [jl]. *)
Definition CType_jsonproto (c : CType) : result json :=
  l <- pop_None [JStr (vt c)] ;;
  Ok (JList l).

(** [arg.jsonproto(jl)]: the item appended to [jl]. *)
Definition arg_jsonproto (c : CType) : result json :=
  let l := [JStr (vt c); json_opt_str (nm c); json_opt_str (defval c);
            json_opt_list (spec c)] in
  let l := if opt c then (l ++ [JBool true])%list else l in
  l <- pop_None l ;;
  Ok (JList l).

Fixpoint collect {A B} (f : A -> result B) (l : list A) : result (list B) :=
  match l with
  | [] => Ok []
  | x :: l' =>
      y <- f x ;;
      r <- collect f l' ;;
      Ok (y :: r)
  end.

(** [ProtoType.jsonproto(jl, cfunc)]: the list [ll] appended to [jl]. *)
Definition ProtoType_jsonproto (v : vcc) (p : ProtoType) (cfunc : string)
  : result json :=
  r <- CType_jsonproto (retval p) ;;
  let ll := [r; JStr (str (csn v) ++ "." ++ cfunc)] in
  let ll :=
    if argstruct p
    then (ll ++ [JStr ("struct arg_" ++ sympfx v ++ str (modname v) ++ "_"
                       ++ cname p)%string])%list
    else (ll ++ [JStr ""])%list in
  al <- collect arg_jsonproto (args p) ;;
  Ok (JList (ll ++ al)%list).

(** ** Stanza handlers *)

(** [toks[i]] *)
Definition word (tk : list string) (i : nat) : result string :=
  match nth_error tk i with
  | Some w => Ok w
  | None => Raise IndexError
  end.

Definition blank (s : string) : bool := String.eqb (strip s) "".

Fixpoint drop_blank (l : list string) : list string :=
  match l with
  | [] => []
  | x :: l' => if blank x then drop_blank l' else l
  end.

(** The documentation lines kept by [Stanza.__init__]. *)
Definition doc_lines (d : string) : list string :=
  rev (drop_blank (rev (drop_blank (split d nl)))).

(** [Stanza.__init__] before it calls [parse]. *)
Definition Stanza_init (c : StanzaClass) (tk : list string) (d : string)
  : Stanza :=
  mkStanza c tk (doc_lines d) None false None None.

Definition set_rstlbl (s : Stanza) (x : option string) : Stanza :=
  mkStanza (cls s) (toks s) (doc s) x (null_ok s) (methods s) (proto s).
Definition set_methods (s : Stanza) (x : option (list MethodStanza)) : Stanza :=
  mkStanza (cls s) (toks s) (doc s) (rstlbl s) (null_ok s) x (proto s).
Definition set_proto (s : Stanza) (x : option ProtoType) : Stanza :=
  mkStanza (cls s) (toks s) (doc s) (rstlbl s) (null_ok s) (methods s) x.
Definition set_null_ok (s : Stanza) (x : bool) : Stanza :=
  mkStanza (cls s) (toks s) (doc s) (rstlbl s) x (methods s) (proto s).
Definition set_cls (s : Stanza) (x : StanzaClass) : Stanza :=
  mkStanza x (toks s) (doc s) (rstlbl s) (null_ok s) (methods s) (proto s).

(** [Stanza.syntax()], with the docstring of the class. *)
Definition syntax (docstring : string) (tk : list string) : result unit :=
  err ("Syntax error." ++ nl ++ tab ++ "Should be: " ++ strip docstring ++ nl
       ++ tab ++ "Is: " ++ join " " tk ++ nl) false.

Definition ModuleStanza_parse (v : vcc) (tk : list string) (d : string)
  : result vcc :=
  let self := Stanza_init ModuleStanza tk d in
  _ <- when (List.length tk <? 4)%nat
         (syntax " $Module modname man_section description ... " tk) ;;
  t1 <- word tk 1 ;;
  t2 <- word tk 2 ;;
  ds <- (if (List.length tk =? 4)%nat && is_quoted (nth 3 tk "")
         then unquote (nth 3 tk "")
         else Ok (join " " (skipn 3 tk))) ;;
  let v := set_module v (Some t1) (Some t2) (Some ds) in
  let self := set_rstlbl self (Some ("vmod_" ++ t1 ++ "(3)")) in
  Ok (contents_append v self).

Definition ABIStanza_parse (v : vcc) (tk : list string) (d : string)
  : result vcc :=
  let self := Stanza_init ABIStanza tk d in
  _ <- when (negb (List.length tk =? 2)%nat)
         (syntax " $ABI [strict|vrt] " tk) ;;
  t1 <- word tk 1 ;;
  let v := set_strict_abi v (dict_get [("strict", true); ("vrt", false)] t1) in
  _ <- when (match strict_abi v with None => true | Some _ => false end)
         (err ("Valid ABI types are 'strict' or 'vrt', got '" ++ t1 ++ "'"
               ++ nl) true) ;;
  let v := contents_append v self in
  Ok (match strict_abi v with
      | Some true => v
      | _ => set_vrt v "VRT_MAJOR_VERSION" "VRT_MINOR_VERSION"
      end).

Definition PrefixStanza_parse (v : vcc) (tk : list string) (d : string)
  : result vcc :=
  let self := Stanza_init PrefixStanza tk d in
  _ <- when (negb (List.length tk =? 2)%nat) (syntax " $Prefix symbol " tk) ;;
  t1 <- word tk 1 ;;
  let v := set_sympfx v (t1 ++ "_") in
  Ok (contents_append v self).

Definition SynopsisStanza_parse (v : vcc) (tk : list string) (d : string)
  : result vcc :=
  let self := Stanza_init SynopsisStanza tk d in
  _ <- when (negb (List.length tk =? 2)%nat)
         (syntax " $Synopsis [auto|manual] " tk) ;;
  t1 <- word tk 1 ;;
  let v := set_auto_synopsis v
             (dict_get [("auto", true); ("manual", false)] t1) in
  _ <- when (match auto_synopsis v with None => true | Some _ => false end)
         (err ("Valid Synopsis values are 'auto' or 'manual', got '" ++ t1
               ++ "'" ++ nl) true) ;;
  Ok (contents_append v self).

Definition EventStanza_parse (v : vcc) (tk : list string) (d : string)
  : result vcc :=
  _ <- when (negb (List.length tk =? 2)%nat)
         (syntax " $Event function_name " tk) ;;
  t1 <- word tk 1 ;;
  let self := Stanza_init (EventStanza t1) tk d in
  Ok (contents_append v self).

Definition FunctionStanza_parse (v : vcc) (tk : list string) (d : string)
  : result vcc :=
  let self := Stanza_init FunctionStanza tk d in
  '(p, en) <- ProtoType_init tk (enums v) true "" ;;
  let v := set_enums v en in
  let self := set_proto self (Some p) in
  let self := set_rstlbl self
                (Some (str (modname v) ++ "." ++ name p ++ "()")) in
  Ok (contents_append v self).

Definition ObjectStanza_parse (v : vcc) (tk : list string) (d : string)
  : result vcc :=
  t1 <- word tk 1 ;;
  let '(tk, nok) :=
    if String.eqb t1 "NULL_OK"
    then ((firstn 1 tk ++ skipn 2 tk)%list, true)
    else (tk, false) in
  '(p, en) <- ProtoType_init tk (enums v) false "" ;;
  let v := set_enums v en in
  let p := set_obj p (Some ("x" ++ name p)) in
  let i := set_name p (name p ++ "__init") in
  let f := set_name p (name p ++ "__fini") in
  let f := set_argstruct f false in
  let f := set_args f [] in
  let self := Stanza_init (ObjectStanza i f) tk d in
  let self := set_null_ok self nok in
  let self := set_proto self (Some p) in
  let self := set_rstlbl self
                (Some (str (modname v) ++ "." ++ name p ++ "()")) in
  let self := set_methods self (Some []) in
  Ok (contents_append v self).

Definition is_ObjectStanza (s : Stanza) : bool :=
  match cls s with
  | ObjectStanza _ _ => true
  | _ => false
  end.

(** [s.startswith(".")] *)
Definition starts_with_dot (s : string) : bool := String.prefix "." s.

Definition MethodStanza_parse (v : vcc) (tk : list string) (d : string)
  : result vcc :=
  match rev (contents v) with
  | [] => Raise IndexError
  | p :: before =>
      _ <- py_assert (is_ObjectStanza p) ;;
      pp <- need_obj (proto p) ;;
      let px := name pp in
      '(pr, en) <- ProtoType_init tk (enums v) true px ;;
      let v := set_enums v en in
      _ <- when (negb (starts_with_dot (bname pr)))
             (err ("$Method " ++ bname pr
                   ++ ": Method names need to start with . (dot)") false) ;;
      let pr := set_obj pr (Some ("x" ++ px)) in
      let self := mkMethodStanza tk (doc_lines d)
                    (Some ("x" ++ name pr ++ "()")) (Some pr) px in
      ms <- need_obj (methods p) ;;
      let p := set_methods p (Some (ms ++ [self])%list) in
      Ok (set_contents v (rev before ++ [p])%list)
  end.

(** What [find_symbol] looks through: entries that may carry a
    signature. *)
Class Symbol (A : Type) : Type := sym_proto : A -> option ProtoType.

#[export] Instance Stanza_Symbol : Symbol Stanza := proto.
#[export] Instance MethodStanza_Symbol : Symbol MethodStanza := m_proto.

(** [AliasStanza.find_symbol(tbl, name)]; the value is [None] when the
    end of the function is reached. *)
Fixpoint find_symbol {A} `{Symbol A} (tbl : list A) (nm_ : string)
  : result (option A) :=
  match tbl with
  | [] =>
      _ <- err ("Symbol '" ++ nm_ ++ "' not found" ++ nl) false ;;
      Ok None
  | sym :: tbl' =>
      match sym_proto sym with
      | None => find_symbol tbl' nm_
      | Some p =>
          if String.eqb (name p) nm_ then Ok (Some sym)
          else find_symbol tbl' nm_
      end
  end.

(** [for sym in tbl] needs a list. *)
Definition need_iter {A} (x : option (list A)) : result (list A) :=
  match x with
  | Some l => Ok l
  | None => Raise TypeError
  end.

(** [s[0]] *)
Definition char0 (s : string) : result ascii :=
  match s with
  | String c _ => Ok c
  | EmptyString => Raise IndexError
  end.

Definition AliasStanza_parse (v : vcc) (tk : list string) (d : string)
  : result vcc :=
  _ <- when (negb (List.length tk =? 3)%nat)
         (err ("Syntax error, expected: $Alias <alias> <symbol>" ++ nl)
            false) ;;
  t1 <- word tk 1 ;;
  _ <- when (negb (re_alias t1))
         (err (t1 ++ "(): Illegal C-name" ++ nl) false) ;;
  c <- char0 t1 ;;
  if Ascii.eqb c "." then
    t2 <- word tk 2 ;;
    _ <- when (negb (re_obj_method t2))
           (err ("Syntax error, expected: $Alias <.alias> <obj.method>" ++ nl)
              false) ;;
    obj_name <- head0 (split t2 ".") ;;
    o <- find_symbol (contents v) obj_name ;;
    o <- need_obj o ;;
    ms <- need_iter (methods o) ;;
    _ <- find_symbol ms t2 ;;
    let a := obj_name ++ t1 in
    let self := Stanza_init (AliasStanza a ("x" ++ a) t2 ("x" ++ t2)) tk d in
    Ok (contents_append v self)
  else
    t2 <- word tk 2 ;;
    _ <- find_symbol (contents v) t2 ;;
    let self := Stanza_init (AliasStanza t1 t1 t2 t2) tk d in
    Ok (contents_append v self).

(** The classes named by [DISPATCH]. *)
Inductive StanzaKind : Set :=
| KModule | KPrefix | KABI | KEvent | KFunction | KObject | KMethod
| KSynopsis | KAlias.

Definition DISPATCH : list (string * StanzaKind) :=
  [ ("Module", KModule);
    ("Prefix", KPrefix);
    ("ABI", KABI);
    ("Event", KEvent);
    ("Function", KFunction);
    ("Object", KObject);
    ("Method", KMethod);
    ("Synopsis", KSynopsis);
    ("Alias", KAlias) ].

(** [stanzaclass(self, toks, docstr)]: the object is built and its
    [parse] runs. *)
Definition Stanza_new (k : StanzaKind) (v : vcc) (tk : list string)
  (d : string) : result vcc :=
  match k with
  | KModule => ModuleStanza_parse v tk d
  | KPrefix => PrefixStanza_parse v tk d
  | KABI => ABIStanza_parse v tk d
  | KEvent => EventStanza_parse v tk d
  | KFunction => FunctionStanza_parse v tk d
  | KObject => ObjectStanza_parse v tk d
  | KMethod => MethodStanza_parse v tk d
  | KSynopsis => SynopsisStanza_parse v tk d
  | KAlias => AliasStanza_parse v tk d
  end.

(** ** [vcc.parse] *)

(** [re.split('\n([^\t ])', s, maxsplit=1)]: the text before the first
    newline that is followed by a character other than a tab or a
    space, and the text from that character on ([ss[0]] and
    ["".join(ss[1:])]). *)
Fixpoint split_stanza (s : string) (cur : string) : string * string :=
  match s with
  | EmptyString => (cur, "")
  | String c s' =>
      if Ascii.eqb c "010" then
        match s' with
        | String e _ =>
            if Ascii.eqb e "009" || Ascii.eqb e " "
            then split_stanza s' (cur ++ String c "")
            else (cur, s')
        | EmptyString => split_stanza s' (cur ++ String c "")
        end
      else split_stanza s' (cur ++ String c "")
  end.

(** The line folded into the fingerprint for one declaration. *)
Definition inputline (tk : list string) : string := "$" ++ join " " tk.

(** A class that is [None] cannot be called. *)
Definition need_callable {A} (x : option A) : result A :=
  match x with
  | Some a => Ok a
  | None => Raise TypeError
  end.

(** The [while s:] loop of [vcc.parse]; [h] is the data given to the
    hash object so far. *)
Fixpoint parse_loop (s : list string) (v : vcc) (h : list N)
  : result (vcc * list N) :=
  match s with
  | [] => Ok (v, h)
  | c :: s' =>
      let ss := split_stanza c "" in
      let tk := tokenize (fst ss) in
      let h := (h ++ utf8_encode (inputline tk ++ nl))%list in
      let docstr := snd ss in
      kw <- head0 tk ;;
      let stanzaclass := dict_get DISPATCH kw in
      _ <- when (match stanzaclass with None => true | Some _ => false end)
             (err ("Unknown stanza $" ++ kw) false) ;;
      k <- need_callable stanzaclass ;;
      v <- Stanza_new k v tk docstr ;;
      parse_loop s' v h
  end.

(** [vcc.parse()], where [b] is the decoded text of [self.inputfile]. *)
Definition vcc_parse (v : vcc) (b : string) : result vcc :=
  let a := nl ++ b in
  let s := split a (nl ++ "$") in
  let v := set_copyright v (strip (hd "" s)) in
  '(v, h) <- parse_loop (List.tl s) v [] ;;
  let v := set_csn v (Some ("Vmod_" ++ sympfx v ++ str (modname v)
                            ++ "_Func")) in
  Ok (set_file_id v (Some (SHA256.hexdigest h))).

End Parser.

(** ** Generators *)

(** [sorted(d)] on strings: by code point, as [String.leb] compares. *)
Fixpoint insert_sorted (x : string) (l : list string) : list string :=
  match l with
  | [] => [x]
  | y :: l' => if String.leb x y then x :: l else y :: insert_sorted x l'
  end.

Definition sorted (l : list string) : list string :=
  fold_right insert_sorted [] l.

(** The implicit leading arguments that [ObjectStanza.cstuff] gives to
    the init and fini entries and to every method; [sn] is the name of
    the handle struct.  [FunctionStanza.cstuff] gives [['VRT_CTX']]. *)
Definition init_eargs (sn : string) : list string :=
  ["VRT_CTX"; "struct " ++ sn ++ " **"; "const char *"].
Definition fini_eargs (sn : string) : list string :=
  ["struct " ++ sn ++ " **"].
Definition method_eargs (sn : string) : list string :=
  ["VRT_CTX"; "struct " ++ sn ++ " *"].
Definition function_eargs : list string := ["VRT_CTX"].

(** [sn] in [ObjectStanza.cstuff] *)
Definition handle_struct (v : vcc) (st : Stanza) : result string :=
  m <- need_str (modname v) ;;
  p <- need_obj (proto st) ;;
  Ok ("VPFX(" ++ m ++ "_" ++ name p ++ ")").

(** [cstuff(fo, where)] of each class: the text written to [fo]. *)
Definition Stanza_cstuff (v : vcc) (st : Stanza) (w : Where) : result string :=
  match cls st with
  | EventStanza f =>
      match w with
      | Wh => Ok ("vmod_event_f VPFX(" ++ f ++ ");" ++ nl)
      | _ => Ok ""
      end
  | FunctionStanza =>
      p <- need_obj (proto st) ;;
      cproto v p function_eargs w
  | ObjectStanza i f =>
      sn <- handle_struct v st ;;
      s1 <- cproto v i (init_eargs sn) w ;;
      s2 <- cproto v f (fini_eargs sn) w ;;
      ms <- need_iter (methods st) ;;
      s3 <- write_each (fun m => p <- need_obj (m_proto m) ;;
                                 cproto v p (method_eargs sn) w) ms ;;
      Ok ("struct " ++ sn ++ ";" ++ nl ++ s1 ++ s2 ++ s3 ++ nl)
  | _ => Ok ""
  end.

(** [Stanza.fmt_cstruct_proto(fo, proto, define)] *)
Definition fmt_cstruct_proto (v : vcc) (p : ProtoType) (define : bool)
  : result string :=
  if define then
    n <- typedef_name v p ;;
    Ok (fmt_cstruct n ("*" ++ cname p ++ ";"))
  else
    Ok (fmt_cstruct ("." ++ cname p ++ " =") (sympfx v ++ cname p ++ ",")).

Definition MethodStanza_cstruct (v : vcc) (m : MethodStanza) (define : bool)
  : result string :=
  p <- need_obj (m_proto m) ;;
  fmt_cstruct_proto v p define.

(** [cstruct(fo, define)] of each class *)
Definition Stanza_cstruct (v : vcc) (st : Stanza) (define : bool)
  : result string :=
  match cls st with
  | EventStanza f =>
      if define then Ok (fmt_cstruct "vmod_event_f" "*_event;")
      else Ok (fmt_cstruct "._event =" (sympfx v ++ f ++ ","))
  | FunctionStanza =>
      p <- need_obj (proto st) ;;
      fmt_cstruct_proto v p define
  | ObjectStanza i f =>
      s1 <- fmt_cstruct_proto v i define ;;
      s2 <- fmt_cstruct_proto v f define ;;
      ms <- need_iter (methods st) ;;
      s3 <- write_each (fun m => MethodStanza_cstruct v m define) ms ;;
      Ok (s1 ++ s2 ++ s3 ++ nl)
  | _ => Ok ""
  end.

(** [MethodStanza.json(jl)]: the entry appended to [jl]. *)
Definition MethodStanza_json (v : vcc) (m : MethodStanza) : result json :=
  p <- need_obj (m_proto m) ;;
  ll <- ProtoType_jsonproto v p (cname p) ;;
  Ok (JList [JStr "$METHOD"; JStr (drop (String.length (m_pfx m) + 1) (name p));
             ll]).

(** [json(jl)] of each class: the entries appended to [jl]. *)
Definition Stanza_json (v : vcc) (st : Stanza) : result (list json) :=
  match cls st with
  | EventStanza _ => Ok [JList [JStr "$EVENT"; JStr (str (csn v) ++ "._event")]]
  | FunctionStanza =>
      p <- need_obj (proto st) ;;
      ll <- ProtoType_jsonproto v p (cname p) ;;
      Ok [JList [JStr "$FUNC"; JStr (name p); ll]]
  | ObjectStanza i f =>
      p <- need_obj (proto st) ;;
      let ll := [JStr "$OBJ"; JStr (name p);
                 JDict [("NULL_OK", JBool (null_ok st))];
                 JStr ("struct " ++ sympfx v ++ str (modname v) ++ "_"
                       ++ name p)] in
      ji <- ProtoType_jsonproto v i (name i) ;;
      jf <- ProtoType_jsonproto v f (name f) ;;
      ms <- need_iter (methods st) ;;
      jm <- collect (MethodStanza_json v) ms ;;
      Ok [JList (ll ++ [JList [JStr "$INIT"; ji]; JList [JStr "$FINI"; jf]]
                 ++ jm)%list]
  | AliasStanza a _ n _ => Ok [JList [JStr "$ALIAS"; JStr a; JStr n]]
  | _ => Ok []
  end.

(** [vcc.mkdefs(fo)] *)
Definition mkdefs (v : vcc) : string :=
  "#define VPFX(a) " ++ sympfx v ++ "##a" ++ nl
  ++ "#define VARGS(a) arg_" ++ sympfx v ++ str (modname v) ++ "_##a" ++ nl
  ++ "#define VENUM(a) enum_" ++ sympfx v ++ str (modname v) ++ "_##a" ++ nl
  ++ String.concat ""
       (flat_map (fun a => map (fun b => "//lint -esym(" ++ b ++ ", " ++ a
                                         ++ ")" ++ nl) ["755"; "767"])
          ["VPFX"; "VARGS"; "VENUM"])
  ++ "//lint -esym(755, VARGS)" ++ nl
  ++ "//lint -esym(755, VENUM)" ++ nl
  ++ nl.

(** [write_c_file_warning(fo, s)] *)
Definition write_c_file_warning (s : string) : string :=
  "/*" ++ nl
  ++ " * NB:  This file is machine generated, DO NOT EDIT!" ++ nl
  ++ " *" ++ nl
  ++ " * Edit " ++ s ++ " and run make instead" ++ nl
  ++ " */" ++ nl ++ nl.

(** [vcc.mkhfile()]: the text of the header. *)
Definition mkhfile (v : vcc) : result string :=
  let e := sorted (enums v) in
  s <- write_each (fun j => Stanza_cstuff v j Wh) (contents v) ;;
  Ok (write_c_file_warning (inputfile v)
      ++ "#ifndef VDEF_H_INCLUDED" ++ nl
      ++ "#  error " ++ dq ++ "Include vdef.h first" ++ dq ++ nl
      ++ "#endif" ++ nl
      ++ "#ifndef VRT_H_INCLUDED" ++ nl
      ++ "#  error " ++ dq ++ "Include vrt.h first" ++ dq ++ nl
      ++ "#endif" ++ nl
      ++ nl
      ++ mkdefs v
      ++ String.concat ""
           (map (fun j => "extern VCL_ENUM VENUM(" ++ j ++ ");" ++ nl) e)
      ++ nl
      ++ String.concat ""
           (map (fun j =>
                   let x := "enum_" ++ sympfx v ++ str (modname v) ++ "_" ++ j
                   in
                   "//lint -esym(14, " ++ x ++ ")" ++ nl
                   ++ "//lint -esym(759, " ++ x ++ ")" ++ nl
                   ++ "//lint -esym(765, " ++ x ++ ")" ++ nl) e)
      ++ nl
      ++ s).

(** [vcc.cstruct(fo)] *)
Definition vcc_cstruct (v : vcc) : result string :=
  s <- write_each (fun j => Stanza_cstruct v j true) (contents v) ;;
  Ok (nl ++ "struct " ++ str (csn v) ++ " {" ++ nl
      ++ s
      ++ String.concat ""
           (map (fun j => fmt_cstruct "VCL_ENUM" ("*enum_" ++ j ++ ";"))
              (sorted (enums v)))
      ++ "};" ++ nl).

Definition is_FunctionStanza (s : Stanza) : bool :=
  match cls s with
  | FunctionStanza => true
  | _ => false
  end.

Fixpoint collect_all {A B} (f : A -> result (list B)) (l : list A)
  : result (list B) :=
  match l with
  | [] => Ok []
  | x :: l' =>
      y <- f x ;;
      r <- collect_all f l' ;;
      Ok (y ++ r)%list
  end.

(** The list [jl] of [vcc.iter_json(fnx)], where [fx] is the text of
    the file [fnx]. *)
Definition protocol_list (v : vcc) (fx : string) : result json :=
  let hd_ := JList [JStr "$VMOD"; JStr "1.0"; json_opt_str (modname v);
                    json_opt_str (csn v); json_opt_str (file_id v)] in
  let cp := JList (JStr "$CPROTO"
                   :: map (fun i => JStr (rstrip i)) (file_lines fx)
                   ++ [JStr ("static struct " ++ str (csn v) ++ " "
                             ++ str (csn v) ++ ";")%string])%list in
  js <- collect_all (Stanza_json v) (contents v) ;;
  Ok (JList (hd_ :: cp :: js)).

(** [vcc.iter_json(fnx)]: the lines it yields. *)
Definition iter_json (v : vcc) (fx : string) : result (list string) :=
  jl <- protocol_list v fx ;;
  Ok (map (fun i => i ++ " ") (splitlines (Json.dumps jl))).

(** ** The C file: [vcc.cstruct_init], [vcc.json], [vcc.vmod_data] and
    [vcc.mkcfile] *)

Definition bs : string := "\".

(** [vcc.cstruct_init(fo)] *)
Definition cstruct_init (v : vcc) : result string :=
  s <- write_each (fun j => Stanza_cstruct v j false) (contents v) ;;
  Ok (nl ++ "static const struct " ++ str (csn v) ++ " " ++ str (csn v)
      ++ " = {" ++ nl
      ++ s
      ++ nl
      ++ String.concat ""
           (map (fun j => fmt_cstruct (".enum_" ++ j ++ " =")
                            ("&VENUM(" ++ j ++ "),"))
              (sorted (enums v)))
      ++ "};" ++ nl).

(** The inner loop of [vcc.json]: a backslash is written before every
    double quote and every backslash of the line. *)
Fixpoint c_escape (i : string) : string :=
  match i with
  | EmptyString => EmptyString
  | String j r =>
      (if Ascii.eqb j "034" || Ascii.eqb j "\"
       then bs ++ String j ""
       else String j "")
      ++ c_escape r
  end.

(** What [vcc.json] writes for the line [i] that [iter_json] yields at
    position [n]: the line as a C string literal, and after the line at
    position 6 the three values that only the C compiler knows. *)
Definition json_line (v : vcc) (n : nat) (i : string) : string :=
  tab ++ dq ++ c_escape i
  ++ (if (n =? 6)%nat
      then "," ++ dq ++ nl
           ++ tab ++ dq ++ "    " ++ bs ++ dq ++ dq ++ " VMOD_ABI_Version "
           ++ dq ++ bs ++ dq ++ ", " ++ dq ++ nl
           ++ tab ++ "    STRINGIFY1(" ++ vrt_major v ++ ") " ++ dq ++ ", "
           ++ dq ++ nl
           ++ tab ++ "    STRINGIFY1(" ++ vrt_minor v ++ ")" ++ nl
      else dq ++ nl).

Fixpoint json_lines (v : vcc) (n : nat) (l : list string) : string :=
  match l with
  | [] => ""
  | i :: r => json_line v n i ++ json_lines v (S n) r
  end.

(** [vcc.json(fo, fnx)], where [fx] is the text of the file [fnx]. *)
Definition vcc_json (v : vcc) (fx : string) : result string :=
  l <- iter_json v fx ;;
  Ok ("#define STRINGIFY3(arg) #arg" ++ nl
      ++ "#define STRINGIFY2(arg) STRINGIFY3(#arg)" ++ nl
      ++ "#define STRINGIFY1(arg) STRINGIFY2(arg)" ++ nl
      ++ nl ++ "static const char Vmod_Json[] = {" ++ nl
      ++ tab ++ dq ++ "VMOD_JSON_SPEC" ++ String "002" "" ++ dq ++ nl
      ++ json_lines v 0 l
      ++ tab ++ dq ++ bs ++ "n" ++ bs ++ "x03" ++ dq ++ nl ++ "};" ++ nl
      ++ "#undef STRINGIFY" ++ nl).

(** [vcc.vmod_data(fo)] *)
Definition vmod_data (v : vcc) : string :=
  let vmd := "Vmod_" ++ str (modname v) ++ "_Data" in
  nl
  ++ String.concat ""
       (map (fun i => "/*lint -esym(" ++ i ++ ", " ++ vmd ++ ") */" ++ nl)
          ["714"; "759"; "765"])
  ++ nl ++ "extern const struct vmod_data " ++ vmd ++ ";" ++ nl
  ++ nl ++ "const struct vmod_data " ++ vmd ++ " = {" ++ nl
  ++ tab ++ ".vrt_major =" ++ tab ++ vrt_major v ++ "," ++ nl
  ++ tab ++ ".vrt_minor =" ++ tab ++ vrt_minor v ++ "," ++ nl
  ++ tab ++ ".name =" ++ tab ++ tab ++ dq ++ str (modname v) ++ dq ++ ","
  ++ nl
  ++ tab ++ ".func =" ++ tab ++ tab ++ "&" ++ str (csn v) ++ "," ++ nl
  ++ tab ++ ".func_len =" ++ tab ++ "sizeof(" ++ str (csn v) ++ ")," ++ nl
  ++ tab ++ ".func_name =" ++ tab ++ dq ++ str (csn v) ++ dq ++ "," ++ nl
  ++ tab ++ ".json =" ++ tab ++ tab ++ "Vmod_Json," ++ nl
  ++ tab ++ ".abi =" ++ tab ++ tab ++ "VMOD_ABI_Version," ++ nl
  ++ tab ++ ".file_id =" ++ tab ++ dq ++ str (file_id v) ++ dq ++ "," ++ nl
  ++ "};" ++ nl.

(** [i.cstuff(fo, 'c')] and then [i.cstuff(fx, 'o')] for every [i] of
    [l]: the texts written to [fo] and to [fx]. *)
Fixpoint cstuff_both (v : vcc) (l : list Stanza) : result (string * string) :=
  match l with
  | [] => Ok ("", "")
  | i :: l' =>
      c <- Stanza_cstuff v i Wc ;;
      x <- Stanza_cstuff v i Wo ;;
      '(cs, xs) <- cstuff_both v l' ;;
      Ok (c ++ cs, x ++ xs)
  end.

(** [vcc.mkcfile()]: the text of the C file, and the text of the side
    file [fx] as it is when [vcc.json] reads it. *)
Definition mkcfile (v : vcc) : result (string * string) :=
  '(oc, ox) <- cstuff_both v (filter is_ObjectStanza (contents v)) ;;
  '(fc, fx_) <- cstuff_both v (filter is_FunctionStanza (contents v)) ;;
  so <- vcc_cstruct v ;;
  sx <- vcc_cstruct v ;;
  c <- need_str (csn v) ;;
  si <- cstruct_init v ;;
  let fx := mkdefs v ++ ox ++ "/* Functions */" ++ nl ++ fx_ ++ sx
            ++ "#undef VPFX" ++ nl ++ "#undef VARGS" ++ nl
            ++ "#undef VENUM" ++ nl in
  js <- vcc_json v fx ;;
  Ok (write_c_file_warning (inputfile v)
      ++ "#include " ++ dq ++ "config.h" ++ dq ++ nl
      ++ String.concat ""
           (map (fun i => "#include " ++ dq ++ i ++ ".h" ++ dq ++ nl)
              ["vdef"; "vrt"; pfx v; "vmod_abi"])
      ++ nl
      ++ String.concat ""
           (map (fun j => "VCL_ENUM VENUM(" ++ j ++ ") = " ++ dq ++ j ++ dq
                          ++ ";" ++ nl)
              (sorted (enums v)))
      ++ nl
      ++ oc ++ fc ++ so
      ++ nl ++ "/*lint -esym(754, " ++ c ++ "::*) */" ++ nl
      ++ si ++ js ++ vmod_data v,
      fx).

(** ** The documentation generator: [vcc.rstfile] and the [rstfile],
    [rsthead], [rstdoc] and [synopsis] methods of the stanzas *)

Section Documentation.

Variable opts_strict : bool.

(** [c * n] *)
Fixpoint repeat_str (c : string) (n : nat) : string :=
  match n with
  | O => ""
  | S k => c ++ repeat_str c k
  end.

(** [if x:] for a string that may be [None] *)
Definition truthy (x : option string) : bool :=
  match x with
  | Some s => negb (String.eqb s "")
  | None => false
  end.

(** [write_file_warning(fo, a, b, c, s)] and
    [write_rst_file_warning(fo, s)] *)
Definition write_file_warning (a b c s : string) : string :=
  a ++ nl
  ++ b ++ " NB:  This file is machine generated, DO NOT EDIT!" ++ nl
  ++ b ++ nl
  ++ b ++ " Edit " ++ s ++ " and run make instead" ++ nl
  ++ c ++ nl ++ nl.

Definition write_rst_file_warning (s : string) : string :=
  write_file_warning ".." ".." ".." s.

(** [write_rst_hdr(fo, s, below, above)] *)
Definition write_rst_hdr (s : string) (below above : option string) : string :=
  nl
  ++ (if truthy above
      then repeat_str (str above) (String.length s) ++ nl
      else "")
  ++ s ++ nl
  ++ (if truthy below
      then repeat_str (str below) (String.length s) ++ nl
      else "").

(** [CType.vcl(terse)] *)
Definition CType_vcl (c : CType) (terse : bool) : string :=
  if String.eqb (vt c) "STRANDS" then "STRING"
  else if terse then vt c
  else match spec c with
       | None => vt c
       | Some l => vt c ++ " {" ++ join ", " l ++ "}"
       end.

(** The class of the stanza [self.st] that owns a signature, as
    [vcl_proto] tests it. *)
Inductive Owner : Set := OwnMethod | OwnObject | OwnOther.

(** [t.replace("@", x)] *)
Fixpoint replace_at (t x : string) : string :=
  match t with
  | EmptyString => EmptyString
  | String c r =>
      (if Ascii.eqb c "@" then x else String c "") ++ replace_at r x
  end.

(** One round of the loop over [self.args] in [vcl_proto]: the item
    added to [ll], if any. *)
Definition vcl_arg (terse : bool) (i : CType) : option string :=
  let t := CType_vcl i terse in
  match dict_get PRIVS t with
  | Some _ => None
  | None =>
      let t := match nm i with
               | Some n => t ++ " " ++ n
               | None => t
               end in
      let t := if terse then t
               else match defval i with
                    | Some d => t ++ "=" ++ d
                    | None => t
                    end in
      Some (if opt i then "[" ++ t ++ "]" else t)
  end.

Fixpoint vcl_args (terse : bool) (al : list CType) : list string :=
  match al with
  | [] => []
  | i :: al' =>
      match vcl_arg terse i with
      | Some t => t :: vcl_args terse al'
      | None => vcl_args terse al'
      end
  end.

(** [ProtoType.vcl_proto(terse, pfx)] *)
Definition vcl_proto (v : vcc) (o : Owner) (p : ProtoType) (terse : bool)
  (pfx_ : string) : result string :=
  let pfx_ := match o with
              | OwnMethod => pfx_ ++ pfx_
              | _ => pfx_
              end in
  s <- (match o with
        | OwnObject =>
            x <- need_str (obj p) ;;
            Ok (pfx_ ++ "new " ++ x ++ " = ")
        | _ => Ok (pfx_ ++ CType_vcl (retval p) false ++ " ")
        end) ;;
  s <- (match o with
        | OwnObject =>
            m <- need_str (modname v) ;;
            Ok (s ++ m ++ "." ++ name p ++ "(")
        | OwnMethod =>
            x <- need_str (obj p) ;;
            Ok (s ++ x ++ bname p ++ "(")
        | OwnOther => Ok (s ++ name p ++ "(")
        end) ;;
  let t := join ",@" (vcl_args terse (args p)) in
  if (68 <? String.length (s ++ t))%nat && negb terse
  then Ok (s ++ nl ++ pfx_ ++ pfx_
           ++ replace_at t (nl ++ pfx_ ++ pfx_)
           ++ nl ++ pfx_ ++ ")")
  else Ok (s ++ replace_at t " " ++ ")").

(** [ProtoType.rst_proto(fo)] *)
Definition rst_proto (v : vcc) (o : Owner) (p : ProtoType) : result string :=
  s <- vcl_proto v o p false "" ;;
  if (String.length s <? 60)%nat
  then Ok (write_rst_hdr s (Some "-") None)
  else
    s <- vcl_proto v o p true "" ;;
    t <- vcl_proto v o p false "   " ;;
    Ok (write_rst_hdr s (Some "-") None
        ++ nl ++ "::" ++ nl ++ nl ++ t ++ nl).

(** The label written by the [rsthead] methods when [self.rstlbl] is
    set. *)
Definition rst_label (l : option string) : string :=
  if truthy l then nl ++ ".. _" ++ str l ++ ":" ++ nl else "".

(** [Stanza.rsthead(fo, man)] and [Stanza.rstdoc(fo, man)] *)
Definition Stanza_rsthead (v : vcc) (o : Owner) (l : option string)
  (pr : option ProtoType) : result string :=
  match pr with
  | Some p =>
      t <- rst_proto v o p ;;
      Ok (rst_label l ++ t ++ nl)
  | None => Ok (rst_label l)
  end.

Definition Stanza_rstdoc (d : list string) : string := join nl d ++ nl.

(** [Stanza.rstfile(fo, man)] on a method *)
Definition MethodStanza_rstfile (v : vcc) (m : MethodStanza) : result string :=
  h <- Stanza_rsthead v OwnMethod (m_rstlbl m) (m_proto m) ;;
  Ok (h ++ Stanza_rstdoc (m_doc m)).

(** [Stanza.synopsis(fo, man)] *)
Definition Stanza_synopsis (v : vcc) (st : Stanza) (man : bool)
  : result string :=
  match proto st with
  | Some p =>
      if man then
        t <- vcl_proto v OwnOther p true "  " ;;
        Ok (t ++ nl ++ "  " ++ nl)
      else if truthy (rstlbl st)
      then Ok ("  :ref:`" ++ str (rstlbl st) ++ "`" ++ nl ++ "   " ++ nl)
      else Ok ""
  | None => Ok ""
  end.

(** [ObjectStanza.synopsis(fo, man)] *)
Definition ObjectStanza_synopsis (v : vcc) (st : Stanza) (man : bool)
  : result string :=
  match proto st with
  | Some p =>
      if man then
        t <- vcl_proto v OwnObject p true "  " ;;
        ms <- need_iter (methods st) ;;
        r <- write_each
               (fun i => match m_proto i with
                         | Some q =>
                             u <- vcl_proto v OwnMethod q true "   " ;;
                             Ok (u ++ nl ++ "   " ++ nl)
                         | None => Ok ""
                         end) ms ;;
        Ok (t ++ nl ++ "  " ++ nl ++ r)
      else if truthy (rstlbl st)
      then
        ms <- need_iter (methods st) ;;
        Ok ("  :ref:`" ++ str (rstlbl st) ++ "`" ++ nl ++ "  " ++ nl
            ++ String.concat ""
                 (map (fun i =>
                         match m_proto i with
                         | Some _ =>
                             if truthy (m_rstlbl i)
                             then "      :ref:`" ++ str (m_rstlbl i) ++ "`"
                                  ++ nl ++ "  " ++ nl
                             else ""
                         | None => ""
                         end) ms))
      else Ok ""
  | None => Ok ""
  end.

(** [c.synopsis(fo, man)] for a stanza of [vcc.contents] *)
Definition synopsis (v : vcc) (st : Stanza) (man : bool) : result string :=
  match cls st with
  | ObjectStanza _ _ => ObjectStanza_synopsis v st man
  | _ => Stanza_synopsis v st man
  end.

(** [ModuleStanza.rsthead(fo, man)] *)
Definition ModuleStanza_rsthead (v : vcc) (st : Stanza) (man : bool)
  : result string :=
  h <- (if man then
          m <- need_str (modname v) ;;
          d <- need_attr (moddesc v) ;;
          ms <- need_attr (mansection v) ;;
          Ok (write_rst_hdr ("vmod_" ++ m) (Some "=") (Some "=")
              ++ write_rst_hdr d (Some "-") (Some "-")
              ++ nl
              ++ ":Manual section: " ++ ms ++ nl)
        else
          m <- need_str (modname v) ;;
          d <- need_attr (moddesc v) ;;
          Ok (rst_label (rstlbl st)
              ++ write_rst_hdr ("VMOD " ++ m ++ " - " ++ d) (Some "=")
                   (Some "="))) ;;
  match auto_synopsis v with
  | Some true =>
      r <- write_each (fun c => synopsis v c man) (contents v) ;;
      Ok (h
          ++ write_rst_hdr "SYNOPSIS" (Some "=") None
          ++ nl
          ++ ".. parsed-literal::" ++ nl ++ nl
          ++ "  import " ++ str (modname v) ++ " [as name] [from " ++ dq
          ++ "path" ++ dq ++ "]" ++ nl
          ++ "  " ++ nl
          ++ r)
  | _ => Ok h
  end.

(** [ObjectStanza.rsthead(fo, man)] *)
Definition ObjectStanza_rsthead (v : vcc) (st : Stanza) : result string :=
  p <- need_obj (proto st) ;;
  t <- rst_proto v OwnObject p ;;
  ms <- need_iter (methods st) ;;
  r <- write_each (MethodStanza_rstfile v) ms ;;
  Ok (rst_label (rstlbl st) ++ t ++ nl ++ join nl (doc st) ++ nl ++ r).

(** [AliasStanza.rsthead(fo, man)] *)
Definition AliasStanza_rsthead (st : Stanza) (doc_alias doc_name : string)
  : string :=
  write_rst_hdr ("ALIAS " ++ doc_alias ++ "()") (Some "-") None
  ++ nl ++ "Deprecated alias for ``" ++ doc_name ++ "()``."
  ++ (if (0 <? List.length (doc st))%nat then nl ++ nl else "").

(** [i.rstfile(fo, man)] for a stanza of [vcc.contents]: the text
    written to [fo]. *)
Definition Stanza_rstfile (v : vcc) (st : Stanza) (man : bool)
  : result string :=
  match cls st with
  | ModuleStanza =>
      h <- ModuleStanza_rsthead v st man ;;
      Ok (h ++ Stanza_rstdoc (doc st))
  | EventStanza f =>
      _ <- when (0 <? List.length (doc st))%nat
             (err opts_strict ("Not emitting .RST for $Event " ++ f ++ nl)
                true) ;;
      Ok ""
  | ObjectStanza _ _ => ObjectStanza_rsthead v st
  | AliasStanza _ da _ dn =>
      Ok (AliasStanza_rsthead st da dn ++ Stanza_rstdoc (doc st))
  | _ =>
      h <- Stanza_rsthead v OwnOther (rstlbl st) (proto st) ;;
      Ok (h ++ Stanza_rstdoc (doc st))
  end.

(** The text written for [self.copyright], when it is not empty: every
    [#] that follows a newline becomes a space, and a first line that
    is [#] or [#-] is left out.  [after_nl] tells whether the character
    before was a newline. *)
Fixpoint replace_nl_hash (a : string) (after_nl : bool) : string :=
  match a with
  | EmptyString => EmptyString
  | String c r =>
      String (if after_nl && Ascii.eqb c "#" then " "%char else c)
        (replace_nl_hash r (Ascii.eqb c "010"))
  end.

Definition copyright_text (a : string) : string :=
  let a := replace_nl_hash a false in
  let a := if String.prefix ("#" ++ nl) a then drop 2 a else a in
  if String.prefix ("#-" ++ nl) a then drop 3 a else a.

(** [vcc.rstfile(man)]: the text of the file; its name starts with
    ["vmod_" + self.modname]. *)
Definition vcc_rstfile (v : vcc) (man : bool) : result string :=
  _ <- need_str (modname v) ;;
  r <- write_each (fun i => Stanza_rstfile v i man) (contents v) ;;
  Ok (write_rst_file_warning (inputfile v)
      ++ (if man then ".. role:: ref(emphasis)" ++ nl
          else nl ++ ":tocdepth: 1" ++ nl)
      ++ r
      ++ (if String.eqb (copyright v) "" then ""
          else write_rst_hdr "COPYRIGHT" (Some "=") None
               ++ nl ++ "::" ++ nl ++ nl
               ++ copyright_text (copyright v) ++ nl)).

End Documentation.

(** ** [runmain]

    [runmain(inputvcc, rstdir, outputprefix)] without [--boilerplate],
    on the text [b] of the input file: the two documentation files,
    the header and the C file are generated in that order.  The value
    is what the run leaves to its reader: the fingerprint and the protocol
    blob, the lines that [iter_json] yields on the side file of
    [mkcfile].  The files themselves, their names and their renaming by
    [vcc.commit] are left out. *)
Definition run (opts_strict : bool) (inputvcc rstdir_ outputprefix b : string)
  : result (option string * list string) :=
  v <- vcc_parse opts_strict (vcc_init inputvcc rstdir_ outputprefix) b ;;
  _ <- vcc_rstfile opts_strict v false ;;
  _ <- vcc_rstfile opts_strict v true ;;
  _ <- mkhfile v ;;
  '(_, fx) <- mkcfile v ;;
  blob <- iter_json v fx ;;
  Ok (file_id v, blob).

(** ** Notions used to state the properties *)

(** A line of the argument struct: the validity flag of an optional
    argument, and the member that holds an argument. *)
Definition valid_flag_field (a : CType) : string :=
  tab ++ "char" ++ tab ++ tab ++ tab ++ "valid_" ++ str (nm a) ++ ";" ++ nl.

Definition member_field (a : CType) : string :=
  tab ++ str (ct a)
  ++ (if (String.length (str (ct a)) <? 8)%nat then tab else "")
  ++ (if (String.length (str (ct a)) <? 16)%nat then tab else "")
  ++ tab ++ str (nm2 a) ++ ";" ++ nl.

(** An argument as the parser leaves it in [ProtoType.args]: it has a
    native type and a bookkeeping name, and a name if it is optional. *)
Definition is_some {A} (x : option A) : bool :=
  match x with
  | Some _ => true
  | None => false
  end.

Definition arg_ok (a : CType) : bool :=
  is_some (ct a) && is_some (nm2 a) && implb (opt a) (is_some (nm a)).

(** Every signature that a stanza carries: its own, the init and fini
    entries of an object, and the signatures of its methods. *)
Definition opt_list {A} (x : option A) : list A :=
  match x with
  | Some a => [a]
  | None => []
  end.

Definition all_protos (st : Stanza) : list ProtoType :=
  (opt_list (proto st)
   ++ match cls st with
      | ObjectStanza i f => [i; f]
      | _ => []
      end
   ++ match methods st with
      | Some ms => flat_map (fun m => opt_list (m_proto m)) ms
      | None => []
      end)%list.

(** A signature as the parser leaves it: well-formed arguments, and the
    argstruct flag set exactly when an argument is optional. *)
Definition proto_ok (p : ProtoType) : Prop :=
  forallb arg_ok (args p) = true /\ argstruct p = existsb opt (args p).

Definition stanzas_ok (l : list Stanza) : Prop :=
  forall st p, In st l -> In p (all_protos st) -> proto_ok p.

(** The five fields of an argument in the protocol, before trimming;
    the optional flag is there only when it is set. *)
Definition full_tuple (a : CType) : list json :=
  ([JStr (vt a); json_opt_str (nm a); json_opt_str (defval a);
    json_opt_list (spec a)]
   ++ (if opt a then [JBool true] else []))%list.

Definition is_JNull (j : json) : bool :=
  match j with
  | JNull => true
  | _ => false
  end.

(** [l] is [full] without its trailing nulls. *)
Definition trimmed (full l : list json) : Prop :=
  (exists k, full = l ++ repeat JNull k)%list
  /\ is_JNull (List.last l JNull) = false.

(** The declarations of a document, as [vcc.parse] cuts them, and the
    bytes its hash object is fed: one canonical line per declaration,
    in declaration order. *)
Definition declarations (b : string) : list string :=
  List.tl (split (nl ++ b) (nl ++ "$")).

Definition canonical_line (c : string) : string :=
  inputline (tokenize (fst (split_stanza c ""))) ++ nl.

Definition fingerprint_input (b : string) : list N :=
  flat_map (fun c => utf8_encode (canonical_line c)) (declarations b).





(** Two contexts that differ at most in the file names given on the
    command line. *)
Definition with_files (f r o : string) (v : vcc) : vcc :=
  mkvcc f r o (sympfx v) (contents v) (copyright v) (enums v) (strict_abi v)
    (vrt_major v) (vrt_minor v) (auto_synopsis v) (modname v) (csn v)
    (mansection v) (moddesc v) (file_id v).

Definition fmap {A B} (f : A -> B) (r : result A) : result B :=
  match r with
  | Ok a => Ok (f a)
  | Fatal t => Fatal t
  | Raise e => Raise e
  | NoFuel => NoFuel
  end.

(** The outcome of a step without the value it gives. *)
Definition void {A} (r : result A) : result unit := fmap (fun _ => tt) r.



(** The keyword of a declaration. *)
Definition keyword (c : string) : string :=
  hd "" (tokenize (fst (split_stanza c ""))).

(** ** Concrete declarations and documents *)

(** The token made of two double quote characters. *)
Definition empty_literal : string := dq ++ dq.

(** The declaration [$Function VOID f(INT a, [INT b], INT c, [INT d])]. *)
Definition abcd_toks : list string :=
  tokenize "Function VOID f(INT a, [INT b], INT c, [INT d])".

(** The document [$Module m 3 "desc"],
    [$Function VOID f(INT a, [INT b], INT c, [INT d])]. *)
Definition abcd_doc : string :=
  "$Module m 3 " ++ dq ++ "desc" ++ dq ++ nl
  ++ "$Function VOID f(INT a, [INT b], INT c, [INT d])" ++ nl.

(** The document [$Module m 3 "desc"], [$Function BOOL is_even(INT n)]. *)
Definition is_even_doc : string :=
  "$Module m 3 " ++ dq ++ "desc" ++ dq ++ nl
  ++ "$Function BOOL is_even(INT n)" ++ nl.

(** The document [$Module m 3 "desc"], [$Object foo(STRING s)]. *)
Definition foo_doc : string :=
  "$Module m 3 " ++ dq ++ "desc" ++ dq ++ nl
  ++ "$Object foo(STRING s)" ++ nl.

(** The native argument list of the init entry of the object of
    [foo_doc], as [ObjectStanza.cstuff] has [ProtoType.proto] build
    it, and the native types of the declared arguments. *)
Definition foo_init_arglist
  : result (list (option string) * list (option string)) :=
  v <- vcc_parse false (vcc_init "foo.vcc" "." "vcc_if") foo_doc ;;
  st <- need_obj (nth_error (contents v) 1) ;;
  p <- need_obj (proto st) ;;
  sn <- handle_struct v st ;;
  match cls st with
  | ObjectStanza i f => Ok (proto_ll i (init_eargs sn), map ct (args p))
  | _ => Raise TypeError
  end.

(** The state after [is_even_doc] and its function stanza. *)
Definition is_even_entry : result (list json) :=
  v <- vcc_parse false (vcc_init "vmod.vcc" "." "vcc_if") is_even_doc ;;
  st <- need_obj (nth_error (contents v) 1) ;;
  Stanza_json v st.



(** The document [$Module m 3 "desc"], [$ABI bogus]. *)
Definition bogus_abi_doc : string :=
  "$Module m 3 " ++ dq ++ "desc" ++ dq ++ nl ++ "$ABI bogus" ++ nl.

Definition abi_msg (t : string) : string :=
  "Valid ABI types are 'strict' or 'vrt', got '" ++ t ++ "'" ++ nl.

(** A document with two [$Prefix] and two [$ABI] declarations. *)
Definition twice_doc : string :=
  "$Module m 3 " ++ dq ++ "desc" ++ dq ++ nl
  ++ "$Prefix one" ++ nl
  ++ "$Prefix two" ++ nl
  ++ "$ABI vrt" ++ nl
  ++ "$ABI strict" ++ nl.





(** The declaration [$Function VOID f(ENUM {Q, a} e = Q)], where Q
    stands for two double quote characters. *)
Definition empty_literal_toks : list string :=
  tokenize ("Function VOID f(ENUM {" ++ empty_literal ++ ", a} e = "
            ++ empty_literal ++ ")").

(** ** The shapes of tokens *)

Fixpoint all_chars (f : ascii -> bool) (s : string) : bool :=
  match s with
  | EmptyString => true
  | String c s' => f c && all_chars f s'
  end.

(** A character that neither ends a token nor starts one of its own. *)
Definition plain_char (c : ascii) : bool :=
  negb (isspace c) && negb (has_char seps c) && negb (has_char quotes c).

Definition sep_token (t : string) : bool :=
  match t with
  | String c EmptyString => has_char seps c
  | _ => false
  end.

Definition word_token (t : string) : bool :=
  match t with
  | EmptyString => false
  | _ => all_chars plain_char t
  end.

(** [body] has one occurrence of [q], at its end. *)
Fixpoint closed_body (q : ascii) (body : string) : bool :=
  match body with
  | EmptyString => false
  | String c EmptyString => Ascii.eqb c q
  | String c r => negb (Ascii.eqb c q) && closed_body q r
  end.

(** A quote character, any text without it, and it again. *)
Definition quoted_token (t : string) : bool :=
  match t with
  | String q body => has_char quotes q && closed_body q body
  | EmptyString => false
  end.

(** A quote character that is never closed. *)
Definition open_token (t : string) : bool :=
  match t with
  | String q body => has_char quotes q && negb (has_char body q)
  | EmptyString => false
  end.

Definition closed_token (t : string) : bool :=
  sep_token t || word_token t || quoted_token t.

(** Every token is a separator, a word or a quoted text; only the last
    one may be a quote left open. *)
Fixpoint tokens_ok (l : list string) : bool :=
  match l with
  | [] => true
  | [t] => closed_token t || open_token t
  | t :: r => closed_token t && tokens_ok r
  end.

(** What the loop of the tokenizer knows about [out] in each of its
    states. *)
Definition tok_inv (quote : option ascii) (inside : bool)
  (out : list string) : Prop :=
  match quote with
  | Some q =>
      has_char quotes q = true
      /\ exists o body,
           out = (o ++ [String q body])%list
           /\ forallb closed_token o = true
           /\ has_char body q = false
  | None =>
      if inside
      then exists o w,
             out = (o ++ [w])%list
             /\ forallb closed_token o = true
             /\ word_token w = true
      else forallb closed_token out = true
  end.

(** ** The pieces of a document *)

(** [b] starts with a character other than a tab and a space. *)
Definition starts_unindented (b : string) : bool :=
  match b with
  | String c _ => negb (Ascii.eqb c "009" || Ascii.eqb c " ")
  | EmptyString => false
  end.

(** Every newline of [a] is followed by a tab or a space, or ends
    [a]: [a] is one declaration line with its continuation lines. *)
Fixpoint one_logical_line (a : string) : bool :=
  match a with
  | EmptyString => true
  | String c a' =>
      (if Ascii.eqb c "010"
       then match a' with
            | String e _ => Ascii.eqb e "009" || Ascii.eqb e " "
            | EmptyString => true
            end
       else true)
      && one_logical_line a'
  end.

(** ** The signatures of a document *)

(** The names that the arguments declare, in the order of declaration. *)
Definition arg_names (al : list CType) : list string :=
  flat_map (fun a => opt_list (nm a)) al.

(** The name of the member that holds the argument at position [i],
    counted from 0. *)
Definition member_name (i : nat) (a : CType) : string :=
  match nm a with
  | Some x => x
  | None => "arg" ++ str_nat (S i)
  end.

(** The literals of the enum spec of a value, none without a spec. *)
Definition literals (a : CType) : list string :=
  match spec a with
  | Some l => l
  | None => []
  end.

(** The return value and the arguments of a signature. *)
Definition values (p : ProtoType) : list CType := retval p :: args p.

(** The native type of a value is the entry of its declared type in
    [CTYPES]. *)
Definition typed (a : CType) : Prop :=
  ct a = dict_get CTYPES (vt a) /\ is_some (ct a) = true.

(** Only an ENUM has a spec, and a spec has at least one literal and no
    empty one. *)
Definition spec_wf (a : CType) : Prop :=
  forall l, spec a = Some l -> vt a = "ENUM" /\ l <> [] /\ ~ In "" l.

(** An argument is not VOID, has a name if it has a default value or is
    optional, and is optional only by the brackets. *)
Definition arg_wf (a : CType) : Prop :=
  vt a <> "VOID"
  /\ (defval a <> None -> nm a <> None)
  /\ (opt a = true -> nm a <> None).

(** [p] has the return value and the base name of [q], and either the
    arguments of [q] or none, as the fini entry of an object. *)
Definition sig_of (q p : ProtoType) : Prop :=
  retval p = retval q /\ bname p = bname q
  /\ ((args p = args q /\ argstruct p = argstruct q)
      \/ (args p = [] /\ argstruct p = false)).

(** [p] stems from a signature that [ProtoType.__init__] has accepted,
    and the enum names that were known after it are in [en]. *)
Definition from_init (en : list string) (p : ProtoType) : Prop :=
  exists s tk en0 r px q en1,
    ProtoType_init s tk en0 r px = Ok (q, en1)
    /\ sig_of q p /\ incl en1 en.

(** What [vcc.parse] keeps true of the enum names and the signatures. *)
Definition doc_inv (v : vcc) : Prop :=
  NoDup (enums v)
  /\ (forall st p, In st (contents v) -> In p (all_protos st) ->
                   from_init (enums v) p)
  /\ (forall x, In x (enums v) ->
                exists st p a, In st (contents v) /\ In p (all_protos st)
                               /\ In a (values p) /\ In x (literals a)).

(** What the loop over the arguments keeps true: [en0] are the enum
    names known when it starts. *)
Definition args_inv (en0 names en : list string) (n : nat) (al : list CType)
  (ast : bool) : Prop :=
  n = List.length al
  /\ names = arg_names al
  /\ NoDup names
  /\ en = fold_left dict_add (flat_map literals al) en0
  /\ Forall typed al /\ Forall spec_wf al /\ Forall arg_wf al
  /\ (forall i a, nth_error al i = Some a -> nm2 a = Some (member_name i a))
  /\ ast = existsb opt al.

(** [l] is in ascending order, as [String.leb] compares. *)
Fixpoint ascending (l : list string) : bool :=
  match l with
  | x :: (y :: _) as r => String.leb x y && ascending r
  | _ => true
  end.

(** ** A document with enums, an unnamed and an optional argument, an
    object and a method *)

Definition shapes_doc : string :=
  "$Module shapes 3 " ++ dq ++ "Shapes" ++ dq ++ nl
  ++ "$Function ENUM {red, green} pick(ENUM {red, blue} c = red, INT,"
  ++ " [REAL w = 1.0])" ++ nl
  ++ "$Object box(INT n)" ++ nl
  ++ "$Method VOID .grow(INT by)" ++ nl.

Definition shapes_vcc : vcc :=
  match vcc_parse false (vcc_init "shapes.vcc" "." "vcc_if") shapes_doc with
  | Ok v => v
  | _ => vcc_init "shapes.vcc" "." "vcc_if"
  end.

(** Its function stanza and the signature of that stanza. *)
Definition shapes_pick_stanza : Stanza :=
  nth 1 (contents shapes_vcc) (Stanza_init ModuleStanza [] "").

Definition shapes_pick : ProtoType :=
  match proto shapes_pick_stanza with
  | Some p => p
  | None => mkProtoType None [] false
              (mkCType None None None false "" None None) "" ""
  end.

(** ** The shape of the stanzas of a document *)

(** A method of the object whose signature is [p]. *)
Definition method_ok (p : ProtoType) (m : MethodStanza) : Prop :=
  exists pm,
    m_proto m = Some pm
    /\ m_pfx m = name p
    /\ name pm = name p ++ bname pm
    /\ starts_with_dot (bname pm) = true
    /\ obj pm = Some ("x" ++ name p)
    /\ m_rstlbl m = Some ("x" ++ name pm ++ "()").

(** A function has a signature and no list of methods; an object has a
    signature, its init and fini entries and a list of methods; no
    other stanza has a signature or a list of methods. *)
Definition shape_ok (st : Stanza) : Prop :=
  match cls st with
  | FunctionStanza =>
      exists p, proto st = Some p /\ methods st = None
                /\ name p = bname p /\ obj p = None
  | ObjectStanza i f =>
      exists p ms,
        proto st = Some p /\ methods st = Some ms
        /\ i = set_name p (name p ++ "__init")
        /\ f = set_args (set_argstruct (set_name p (name p ++ "__fini")) false)
                 []
        /\ name p = bname p /\ obj p = Some ("x" ++ name p)
        /\ Forall (method_ok p) ms
  | _ => proto st = None /\ methods st = None
  end.

(** What the generators need of a signature: a native type for the
    return value and well-formed arguments. *)
Definition emittable (p : ProtoType) : Prop :=
  is_some (ct (retval p)) = true /\ forallb arg_ok (args p) = true.

(** The message of [SynopsisStanza.parse] for a value that is neither
    [auto] nor [manual]. *)
Definition synopsis_msg (t : string) : string :=
  "Valid Synopsis values are 'auto' or 'manual', got '" ++ t ++ "'" ++ nl.

(** The two defects of the warning class. *)
Definition warning_class {A} (r : result A) : Prop :=
  exists t, r = Fatal (abi_msg t) \/ r = Fatal (synopsis_msg t).

(** ** Declarations and stanzas *)

(** The tokens that a stanza of class [k] keeps of its declaration:
    [ObjectStanza.parse] removes the word [NULL_OK] after the keyword. *)
Definition kept (k : StanzaKind) (tk : list string) : list string :=
  match k with
  | KObject =>
      if String.eqb (nth 1 tk "") "NULL_OK"
      then (firstn 1 tk ++ skipn 2 tk)%list
      else tk
  | _ => tk
  end.

Definition is_KObject (k : StanzaKind) : bool :=
  match k with
  | KObject => true
  | _ => false
  end.

Definition is_KMethod (k : StanzaKind) : bool :=
  match k with
  | KMethod => true
  | _ => false
  end.

(** The class of a declaration, if its keyword names one. *)
Definition kind_of (c : string) : option StanzaKind :=
  dict_get DISPATCH (keyword c).

(** The tokens and the documentation lines that are kept of a
    declaration. *)
Definition decl_of (c : string) : list string * list string :=
  let ss := split_stanza c "" in
  let tk := tokenize (fst ss) in
  (match kind_of c with
   | Some k => kept k tk
   | None => tk
   end,
   doc_lines (snd ss)).

(** The tokens and the documentation lines of a stanza, followed by
    those of its methods. *)
Definition stanza_decls (st : Stanza) : list (list string * list string) :=
  (toks st, doc st)
  :: match methods st with
     | Some ms => map (fun m => (m_toks m, m_doc m)) ms
     | None => []
     end.

(** A method comes right after an object or another method. *)
Fixpoint methods_follow (prev : option StanzaKind) (l : list string) : bool :=
  match l with
  | [] => true
  | c :: l' =>
      (match kind_of c with
       | Some KMethod =>
           match prev with
           | Some KObject | Some KMethod => true
           | _ => false
           end
       | _ => true
       end)
      && methods_follow (kind_of c) l'
  end.

(** ** Texts *)

(** [s] without its whitespace characters. *)
Fixpoint nonspace (s : string) : string :=
  match s with
  | EmptyString => EmptyString
  | String c r => if isspace c then nonspace r else String c (nonspace r)
  end.

(** ** The protocol lines in the C file *)

(** The characters that a C compiler reads from the body [s] of a
    string literal in which a backslash stands before a double quote
    or a backslash only; [None] if a double quote ends the body early,
    if a backslash stands before another character or at the end. *)
Fixpoint c_string_body (s : string) : option string :=
  match s with
  | EmptyString => Some EmptyString
  | String c r =>
      if Ascii.eqb c "\" then
        match r with
        | String d r' =>
            if Ascii.eqb d "034" || Ascii.eqb d "\"
            then option_map (String d) (c_string_body r')
            else None
        | EmptyString => None
        end
      else if Ascii.eqb c "034" then None
      else option_map (String c) (c_string_body r)
  end.

(** A character that is printed as it is: code points 32 to 126. *)
Definition printable (c : ascii) : bool :=
  let n := nat_of_ascii c in ((32 <=? n) && (n <=? 126))%nat.

(** A printable character or a newline. *)
Definition printable_nl (c : ascii) : bool :=
  printable c || Ascii.eqb c "010".

(** * Properties *)

(** ** Auxiliary facts *)

Lemma append_assoc (a b c : string) : (a ++ b) ++ c = a ++ (b ++ c).
Proof. induction a as [|x a IH]; simpl; [reflexivity | now rewrite IH]. Qed.

Lemma append_nil_r (a : string) : a ++ "" = a.
Proof. induction a as [|x a IH]; simpl; [reflexivity | now rewrite IH]. Qed.

Lemma bind_Ok {A B} (m : result A) (k : A -> result B) (b : B) :
  bind m k = Ok b -> exists a, m = Ok a /\ k a = Ok b.
Proof. destruct m; simpl; try discriminate. intros H. now exists a. Qed.

Lemma err_nowarn (s : bool) (txt : string) : err s txt false = Fatal txt.
Proof. unfold err. now rewrite orb_true_r. Qed.

Lemma when_err_Ok (s b : bool) (txt : string) (u : unit) :
  when b (err s txt false) = Ok u -> b = false.
Proof. destruct b; simpl; [rewrite err_nowarn; discriminate | reflexivity]. Qed.

Lemma when_false (m : result unit) : when false m = Ok tt.
Proof. reflexivity. Qed.

(** Splits a successful sequence into its successful steps. *)
Ltac inv_bind H :=
  let a := fresh "a" in
  let H1 := fresh "E" in
  apply bind_Ok in H; destruct H as [a [H1 H]].

Ltac inv_ok :=
  repeat match goal with
  | H : Ok _ = Ok _ |- _ => injection H as H; subst
  | H : (_, _) = (_, _) |- _ => injection H as H; subst
  | H : Fatal _ = Ok _ |- _ => discriminate H
  | H : Raise _ = Ok _ |- _ => discriminate H
  | H : NoFuel = Ok _ |- _ => discriminate H
  | H : when _ (err _ _ false) = Ok _ |- _ => apply when_err_Ok in H
  | H : pop0 (_ :: _) = Ok _ |- _ => simpl in H
  | H : head0 (_ :: _) = Ok _ |- _ => simpl in H
  | H : pop0 [] = Ok _ |- _ => discriminate H
  | H : head0 [] = Ok _ |- _ => discriminate H
  | H : pop0 ?l = Ok _ |- _ =>
      is_var l; destruct l; simpl in H; [discriminate H |]
  | H : head0 ?l = Ok _ |- _ =>
      is_var l; destruct l; simpl in H; [discriminate H |]
  end.

(** *** The argument parser does not depend on the strictness flag:
    all its defects are fatal. *)

Lemma CType_init_strict (s1 s2 : bool) wl en :
  CType_init s1 wl en = CType_init s2 wl en.
Proof. destruct s1, s2; reflexivity. Qed.

Lemma ProtoType_init_strict (s1 s2 : bool) tk en r px :
  ProtoType_init s1 tk en r px = ProtoType_init s2 tk en r px.
Proof. destruct s1, s2; reflexivity. Qed.

Lemma find_symbol_strict (s1 s2 : bool) {A} `{Symbol A} (tbl : list A) n :
  find_symbol s1 tbl n = find_symbol s2 tbl n.
Proof. destruct s1, s2; reflexivity. Qed.

(** *** Every step of the argument parser consumes words. *)

Lemma bind_NoFuel {A B} (m : result A) (k : A -> result B) :
  bind m k = NoFuel -> m = NoFuel \/ exists a, m = Ok a /\ k a = NoFuel.
Proof. destruct m; simpl; try discriminate; eauto. Qed.

(** Decomposes the successful run of a sequence, step by step. *)
Ltac inv_run :=
  repeat (inv_ok;
          match goal with
          | H : bind _ _ = Ok _ |- _ =>
              apply bind_Ok in H; destruct H as [? [? H]]
          | H : (let '(_, _) := ?x in _) = Ok _ |- _ => destruct x
          | H : context [match ?x with (_, _) => _ end] |- _ =>
              is_var x; destruct x
          end);
  inv_ok.

(** Closes a goal whose hypothesis says that a sequence without loops
    ran out of rounds. *)
Ltac no_fuel :=
  repeat match goal with
  | H : bind _ _ = NoFuel |- _ =>
      apply bind_NoFuel in H; destruct H as [H | [? [? H]]]
  | H : Ok _ = NoFuel |- _ => discriminate H
  | H : Fatal _ = NoFuel |- _ => discriminate H
  | H : Raise _ = NoFuel |- _ => discriminate H
  | H : err _ _ _ = NoFuel |- _ =>
      unfold err in H; destruct (_ || _) in H; discriminate H
  | H : when ?b _ = NoFuel |- _ => destruct b; simpl in H
  | H : py_assert ?b = NoFuel |- _ => destruct b; discriminate H
  | H : pop0 ?l = NoFuel |- _ => destruct l; discriminate H
  | H : head0 ?l = NoFuel |- _ => destruct l; discriminate H
  | H : last_word ?l = NoFuel |- _ => destruct l; discriminate H
  | H : unquote _ = NoFuel |- _ => unfold unquote in H
  | H : (if ?b then _ else _) = NoFuel |- _ => destruct b
  | H : (let '(_, _) := ?x in _) = NoFuel |- _ => destruct x
  | H : match ?x with (_, _) => _ end = NoFuel |- _ => destruct x
  end.

Lemma add_spec_loop_shorter :
  forall n wl sp en sp' en' wl',
    List.length wl <= n ->
    add_spec_loop wl sp en = Ok (sp', en', wl') ->
    List.length wl' < List.length wl.
Proof.
  induction n as [|n IH]; intros wl sp en sp' en' wl' Hn H.
  - destruct wl; [discriminate H | simpl in Hn; lia].
  - destruct wl as [|x [|w wl2]]; try discriminate H.
    + simpl in H. inv_run; try discriminate.
    + simpl in H. inv_run.
      destruct (String.eqb w "}").
      * inv_run. simpl. lia.
      * inv_run. apply IH in H; simpl in *; lia.
Qed.

Lemma add_spec_loop_NoFuel :
  forall n wl sp en,
    List.length wl <= n -> add_spec_loop wl sp en <> NoFuel.
Proof.
  induction n as [|n IH]; intros wl sp en Hn H.
  - destruct wl; [discriminate H | simpl in Hn; lia].
  - destruct wl as [|x [|w wl2]]; try discriminate H; simpl in H.
    + no_fuel.
    + apply bind_NoFuel in H. destruct H as [H | [? [? H]]]; [no_fuel|].
      apply bind_NoFuel in H. destruct H as [H | [? [? H]]]; [no_fuel|].
      destruct (String.eqb w "}"); [discriminate H|].
      apply bind_NoFuel in H. destruct H as [H | [? [? H]]]; [no_fuel|].
      apply IH in H; [assumption | simpl in Hn; lia].
Qed.

Lemma CType_init_shorter s wl en c wl' en' :
  CType_init s wl en = Ok (c, wl', en') ->
  List.length wl' < List.length wl.
Proof.
  unfold CType_init. intros H. inv_run.
  match goal with H : match ?l with _ => _ end = Ok _ |- _ =>
    destruct l as [|w wl1] end.
  - inv_run. simpl. lia.
  - destruct (String.eqb w "{").
    + unfold add_spec in H. inv_run.
      match goal with H : add_spec_loop _ _ _ = Ok _ |- _ =>
        eapply add_spec_loop_shorter in H; [|apply le_n] end.
      simpl. lia.
    + inv_run. simpl. lia.
Qed.

Lemma CType_init_NoFuel s wl en : CType_init s wl en <> NoFuel.
Proof.
  unfold CType_init, add_spec. intros H.
  apply bind_NoFuel in H. destruct H as [H | [[v wl0] [? H]]]; [no_fuel|].
  apply bind_NoFuel in H. destruct H as [H | [? [? H]]]; [no_fuel|].
  destruct wl0 as [|w wl1]; [discriminate H|].
  destruct (String.eqb w "{"); [|discriminate H].
  apply bind_NoFuel in H. destruct H as [H | [? [? H]]]; [no_fuel|].
  apply bind_NoFuel in H. destruct H as [H | [? [? H]]]; [no_fuel|].
  simpl in H.
  apply bind_NoFuel in H. destruct H as [H | [? [? H]]]; [no_fuel|].
  apply bind_NoFuel in H. destruct H as [H | [[[? ?] ?] [? H]]];
    [|discriminate H].
  eapply add_spec_loop_NoFuel in H; [assumption | apply le_n].
Qed.

Lemma arg_init_shorter s wl names en end_ c wl' names' en' :
  arg_init s wl names en end_ = Ok (c, wl', names', en') ->
  List.length wl' < List.length wl.
Proof.
  unfold arg_init. intros H.
  apply bind_Ok in H. destruct H as [[[c0 wl0] en0] [E H]].
  apply CType_init_shorter in E.
  apply bind_Ok in H. destruct H as [h [Eh H]].
  destruct (String.eqb h end_); [inv_run; assumption|].
  apply bind_Ok in H. destruct H as [[x wl1] [Ex H]].
  apply bind_Ok in H. destruct H as [? [_ H]].
  apply bind_Ok in H. destruct H as [h2 [Eh2 H]].
  destruct (String.eqb h2 end_); [inv_run; simpl in *; lia|].
  inv_run. simpl in *. lia.
Qed.

Lemma arg_init_NoFuel s wl names en end_ :
  arg_init s wl names en end_ <> NoFuel.
Proof.
  unfold arg_init. intros H.
  apply bind_NoFuel in H. destruct H as [H | [[[c0 wl0] en0] [E H]]].
  - now apply CType_init_NoFuel in H.
  - no_fuel.
Qed.

(** [length wl] rounds are enough for the loop over the arguments. *)
Lemma args_loop_NoFuel s :
  forall fuel wl names en n al ast,
    List.length wl <= fuel ->
    args_loop s fuel wl names en n al ast <> NoFuel.
Proof.
  induction fuel as [|fuel IH]; intros wl names en n al ast Hn H.
  - destruct wl; [discriminate H | simpl in Hn; lia].
  - destruct wl as [|x wl]; [discriminate H|].
    cbn [args_loop] in H.
    apply bind_NoFuel in H. destruct H as [H | [[x0 wl0] [E H]]]; [no_fuel|].
    cbn in E. injection E as -> ->.
    apply bind_NoFuel in H. destruct H as [H | [? [? H]]]; [no_fuel|].
    destruct wl0 as [|w wl1]; [discriminate H|].
    apply bind_NoFuel in H.
    destruct H as [H | [[[[[t wl2] names2] en2] ast2] [E H]]].
    + destruct (String.eqb w "[").
      * apply bind_NoFuel in H. destruct H as [H | [[? ?] [? H]]]; [no_fuel|].
        apply bind_NoFuel in H.
        destruct H as [H | [[[[? ?] ?] ?] [? H]]];
          [now apply arg_init_NoFuel in H | no_fuel].
      * apply bind_NoFuel in H.
        destruct H as [H | [[[[? ?] ?] ?] [? H]]];
          [now apply arg_init_NoFuel in H | no_fuel].
    + apply bind_NoFuel in H. destruct H as [H | [? [? H]]]; [no_fuel|].
      apply IH in H; [assumption|].
      destruct (String.eqb w "[").
      * apply bind_Ok in E. destruct E as [[? wl3] [E1 E]].
        cbn in E1. injection E1 as _ <-.
        apply bind_Ok in E. destruct E as [[[[? ?] ?] ?] [E2 E]].
        apply arg_init_shorter in E2. inv_run. simpl in *. lia.
      * apply bind_Ok in E. destruct E as [[[[? ?] ?] ?] [E2 E]].
        apply arg_init_shorter in E2. inv_run. simpl in *. lia.
Qed.

Lemma ProtoType_init_fuel s tk en r px :
  ProtoType_init s tk en r px <> NoFuel.
Proof.
  unfold ProtoType_init. intros H.
  apply bind_NoFuel in H. destruct H as [H | [[[rv wl] en1] [E H]]].
  - destruct r; [now apply CType_init_NoFuel in H|].
    apply bind_NoFuel in H. destruct H as [H | [[[? ?] ?] [? H]]];
      [now apply CType_init_NoFuel in H | discriminate H].
  - apply bind_NoFuel in H. destruct H as [H | [[? ?] [? H]]]; [no_fuel|].
    apply bind_NoFuel in H. destruct H as [H | [? [? H]]]; [no_fuel|].
    apply bind_NoFuel in H. destruct H as [H | [? [? H]]]; [no_fuel|].
    match type of H with (if ?b then _ else _) = _ => destruct b end;
      [discriminate H|].
    apply bind_NoFuel in H. destruct H as [H | [? [? H]]]; [no_fuel|].
    apply bind_NoFuel in H. destruct H as [H | [? [? H]]]; [no_fuel|].
    apply bind_NoFuel in H. destruct H as [H | [? [? H]]]; [no_fuel|].
    apply bind_NoFuel in H. destruct H as [H | [? [? H]]]; [no_fuel|].
    apply bind_NoFuel in H. destruct H as [H | [[[? ?] ?] [? H]]];
      [|discriminate H].
    apply args_loop_NoFuel in H; [assumption | apply le_n].
Qed.

(** *** The bounded loops of the layout helpers end by their own test *)

Lemma expandtabs_aux_tab :
  forall t lp len,
    S (expandtabs_aux t lp len) <= expandtabs_aux (t ++ tab) lp len.
Proof.
  induction t as [|c t IH]; intros lp len.
  - unfold tab. cbn [append expandtabs_aux].
    change (Ascii.eqb "009" "009") with true. cbv iota.
    pose proof (Nat.mod_upper_bound lp 8). lia.
  - cbn [append expandtabs_aux].
    destruct (Ascii.eqb c "009"); [apply IH|].
    destruct (Ascii.eqb c "010" || Ascii.eqb c "013"); apply IH.
Qed.

(** [pad_tabs] stops because the line is wide enough, not because its
    rounds are used up. *)
Lemma pad_tabs_enough :
  forall fuel t,
    40 <= expandtabs_len t + fuel ->
    40 <= expandtabs_len (pad_tabs fuel t).
Proof.
  induction fuel as [|fuel IH]; intros t H; cbn [pad_tabs].
  - lia.
  - destruct (expandtabs_len t <? 40)%nat eqn:E.
    + apply IH. pose proof (expandtabs_aux_tab t 0 0).
      unfold expandtabs_len in *. lia.
    + apply Nat.ltb_ge in E. exact E.
Qed.

Lemma lstrip_length s : String.length (lstrip s) <= String.length s.
Proof.
  induction s as [|c s IH]; cbn [lstrip]; [lia|].
  destruct (isspace c); cbn [String.length]; lia.
Qed.

Lemma drop_length :
  forall n s, String.length (drop n s) = String.length s - n.
Proof.
  induction n as [|n IH]; intros s; [cbn; lia|].
  destruct s as [|c s]; cbn [drop String.length]; [reflexivity | apply IH].
Qed.

(** [lwrap_loop] stops because the rest fits the width or has no place
    to break, not because its rounds are used up. *)
Lemma lwrap_loop_enough :
  forall fuel width s p ll,
    String.length s <= fuel ->
    let '(_, s', _) := lwrap_loop fuel width s p ll in
    (width <? String.length s')%nat = false
    \/ (rfind (take width s') "," = None /\ rfind (take width s') "(" = None).
Proof.
  induction fuel as [|fuel IH]; intros width s p ll H; cbn [lwrap_loop].
  - left. apply Nat.ltb_ge. lia.
  - destruct (width <? String.length s)%nat eqn:E; [|now left].
    destruct (rfind (take width s) ",") as [y|] eqn:E1.
    + apply IH. pose proof (lstrip_length (drop (y + 1) s)).
      rewrite drop_length in *. apply Nat.ltb_lt in E. lia.
    + destruct (rfind (take width s) "(") as [y|] eqn:E2.
      * apply IH. pose proof (lstrip_length (drop (y + 1) s)).
        rewrite drop_length in *. apply Nat.ltb_lt in E. lia.
      * right. split; assumption.
Qed.

(** *** The tokenizer never writes to the last token of an empty list *)

Lemma append_last_nonempty out c : out <> [] -> append_last out c <> [].
Proof.
  destruct out as [|t [|u out]]; cbn [append_last]; congruence.
Qed.

Lemma tokenize_loop_exn_total :
  forall txt quote inside out,
    (quote <> None \/ inside = true -> out <> []) ->
    tokenize_loop_exn txt quote inside out
    = Ok (tokenize_loop txt quote inside out).
Proof.
  induction txt as [|c txt IH]; intros quote inside out H; [reflexivity|].
  cbn [tokenize_loop_exn tokenize_loop].
  assert (S1 : forall (l : list string) x, (l ++ [x])%list <> [])
    by (intros l x E; apply app_eq_nil in E; destruct E; discriminate).
  destruct quote as [q|].
  - assert (N : out <> []) by (apply H; left; discriminate).
    unfold append_last_exn. destruct out as [|t out]; [congruence|].
    cbn [bind]. pose proof (append_last_nonempty (t :: out) c N) as N'.
    destruct (Ascii.eqb c q); apply IH; intros _; exact N'.
  - destruct (isspace c); [apply IH; intros [E|E]; congruence|].
    destruct (has_char seps c); [apply IH; intros _; apply S1|].
    destruct (has_char quotes c); [apply IH; intros _; apply S1|].
    destruct inside.
    + assert (N : out <> []) by (apply H; right; reflexivity).
      unfold append_last_exn. destruct out as [|t out]; [congruence|].
      cbn [bind]. pose proof (append_last_nonempty (t :: out) c N) as N'.
      apply IH; intros _; exact N'.
    + apply IH; intros _; apply S1.
Qed.

Lemma tokenize_exn_total txt : tokenize_exn txt = Ok (tokenize txt).
Proof.
  apply tokenize_loop_exn_total. intros [E|E]; congruence.
Qed.




(** ** The argument struct (C1) *)

Lemma add_spec_fields c wl en c' wl' en' :
  add_spec c wl en = Ok (c', wl', en') ->
  ct c' = ct c /\ opt c' = opt c /\ nm c' = nm c /\ nm2 c' = nm2 c
  /\ vt c' = vt c /\ defval c' = defval c.
Proof. unfold add_spec. intros H. inv_run. simpl. tauto. Qed.

Lemma CType_init_fields s wl en c wl' en' :
  CType_init s wl en = Ok (c, wl', en') ->
  is_some (ct c) = true /\ opt c = false /\ nm c = None /\ nm2 c = None.
Proof.
  unfold CType_init. intros H.
  apply bind_Ok in H. destruct H as [[v wl0] [_ H]].
  apply bind_Ok in H. destruct H as [? [E H]].
  apply when_err_Ok in E. cbn [ct] in E.
  assert (B : is_some (dict_get CTYPES v) = true)
    by (destruct (dict_get CTYPES v); [reflexivity | discriminate E]).
  destruct wl0 as [|w wl1]; [inv_run; cbn [ct opt nm nm2]; tauto|].
  destruct (String.eqb w "{"); [|inv_run; cbn [ct opt nm nm2]; tauto].
  apply bind_Ok in H. destruct H as [? [_ H]].
  apply add_spec_fields in H. cbn [ct opt nm nm2 vt defval] in H.
  destruct H as (-> & -> & -> & -> & _). tauto.
Qed.

Lemma arg_init_fields s wl names en end_ c wl' names' en' :
  arg_init s wl names en end_ = Ok (c, wl', names', en') ->
  is_some (ct c) = true /\ opt c = false /\ nm2 c = None.
Proof.
  unfold arg_init. intros H.
  apply bind_Ok in H. destruct H as [[[c0 wl0] en0] [E H]].
  apply CType_init_fields in E. destruct E as (E1 & E2 & E3 & E4).
  apply bind_Ok in H. destruct H as [h [_ H]].
  destruct (String.eqb h end_); [inv_run; tauto|].
  apply bind_Ok in H. destruct H as [[x wl1] [_ H]].
  apply bind_Ok in H. destruct H as [? [_ H]].
  apply bind_Ok in H. destruct H as [h2 [_ H]].
  destruct (String.eqb h2 end_); [inv_run; simpl; tauto|].
  inv_run. simpl. tauto.
Qed.

Lemma forallb_snoc {A} (f : A -> bool) l x :
  forallb f (l ++ [x]) = forallb f l && f x.
Proof. rewrite forallb_app. simpl. now rewrite andb_true_r. Qed.

Lemma existsb_snoc {A} (f : A -> bool) l x :
  existsb f (l ++ [x]) = existsb f l || f x.
Proof. rewrite existsb_app. simpl. now rewrite orb_false_r. Qed.

(** The loop over the arguments keeps every argument well formed and
    the argstruct flag equal to "some argument is optional". *)
Lemma args_loop_inv s :
  forall fuel wl names en n al ast al' ast' en',
    forallb arg_ok al = true ->
    ast = existsb opt al ->
    args_loop s fuel wl names en n al ast = Ok (al', ast', en') ->
    forallb arg_ok al' = true /\ ast' = existsb opt al'.
Proof.
  induction fuel as [|fuel IH];
    intros wl names en n al ast al' ast' en' Hal Hast H.
  - destruct wl; [simpl in H; inv_run; auto | discriminate H].
  - destruct wl as [|x wl]; [simpl in H; inv_run; auto|].
    cbn [args_loop] in H.
    apply bind_Ok in H. destruct H as [[x0 wl0] [E H]].
    cbn in E. injection E as -> ->.
    apply bind_Ok in H. destruct H as [? [_ H]].
    destruct wl0 as [|w wl1]; [inv_run; auto|].
    apply bind_Ok in H.
    destruct H as [[[[[t wl2] names2] en2] ast2] [E H]].
    apply bind_Ok in H. destruct H as [? [_ H]].
    apply IH in H; [assumption | |].
    + rewrite forallb_snoc, Hal. simpl. unfold arg_ok. simpl.
      destruct (String.eqb w "[").
      * apply bind_Ok in E. destruct E as [[? wl3] [_ E]].
        apply bind_Ok in E. destruct E as [[[[t0 ?] ?] ?] [E2 E]].
        apply arg_init_fields in E2. destruct E2 as (C1 & C2 & C3).
        apply bind_Ok in E. destruct E as [? [E3 E]].
        apply when_err_Ok in E3. inv_run. simpl. rewrite C1.
        destruct (nm t0); [destruct (nm (set_opt _ _)); reflexivity
                          | discriminate E3].
      * apply bind_Ok in E. destruct E as [[[[t0 ?] ?] ?] [E2 E]].
        apply arg_init_fields in E2. destruct E2 as (C1 & C2 & C3).
        inv_run. rewrite C1, C2. destruct (nm t); reflexivity.
    + rewrite existsb_snoc. simpl.
      destruct (String.eqb w "[").
      * apply bind_Ok in E. destruct E as [[? wl3] [_ E]].
        apply bind_Ok in E. destruct E as [[[[t0 ?] ?] ?] [E2 E]].
        inv_run. simpl. now rewrite orb_true_r.
      * apply bind_Ok in E. destruct E as [[[[t0 ?] ?] ?] [E2 E]].
        apply arg_init_fields in E2. destruct E2 as (C1 & C2 & C3).
        inv_run. rewrite C2. now rewrite orb_false_r.
Qed.

Lemma ProtoType_init_args s tk en r px p en' :
  ProtoType_init s tk en r px = Ok (p, en') ->
  forallb arg_ok (args p) = true
  /\ argstruct p = existsb opt (args p)
  /\ is_some (ct (retval p)) = true
  /\ name p = px ++ bname p.
Proof.
  unfold ProtoType_init. intros H.
  apply bind_Ok in H. destruct H as [[[rv wl] en1] [E H]].
  assert (R : is_some (ct rv) = true).
  { destruct r.
    - now apply CType_init_fields in E.
    - apply bind_Ok in E. destruct E as [[[c ?] ?] [E1 E]].
      apply CType_init_fields in E1. inv_run. tauto. }
  apply bind_Ok in H. destruct H as [[bn wl0] [_ H]].
  apply bind_Ok in H. destruct H as [? [_ H]].
  apply bind_Ok in H. destruct H as [? [_ H]].
  match type of H with (if ?b then _ else _) = _ => destruct b end.
  - inv_run. simpl. tauto.
  - apply bind_Ok in H. destruct H as [? [_ H]].
    apply bind_Ok in H. destruct H as [? [_ H]].
    apply bind_Ok in H. destruct H as [? [_ H]].
    apply bind_Ok in H. destruct H as [? [_ H]].
    apply bind_Ok in H. destruct H as [[[al ast] en2] [E2 H]].
    apply args_loop_inv in E2; [|reflexivity|reflexivity].
    inv_run. simpl. tauto.
Qed.

Lemma concat_cons_nosep x l :
  String.concat "" (x :: l) = x ++ String.concat "" l.
Proof. destruct l; simpl; [now rewrite append_nil_r | reflexivity]. Qed.

Lemma argstructure_valid_spec :
  forall al s,
    forallb arg_ok al = true ->
    argstructure_valid al s
    = Ok (s ++ String.concat "" (map valid_flag_field (filter opt al))).
Proof.
  induction al as [|a al IH]; intros s H.
  - simpl. now rewrite append_nil_r.
  - simpl in H. apply andb_prop in H. destruct H as [Ha Hl].
    unfold arg_ok in Ha. cbn [argstructure_valid filter].
    destruct (opt a) eqn:Eo.
    + simpl in Ha. apply andb_prop in Ha. destruct Ha as [_ Ha].
      cbn [map]. rewrite concat_cons_nosep. unfold valid_flag_field at 1.
      destruct (nm a) as [n|]; [|discriminate Ha].
      simpl. rewrite IH by assumption.
      f_equal. rewrite append_assoc. reflexivity.
    + now apply IH.
Qed.

Lemma argstructure_fields_spec :
  forall al s,
    forallb arg_ok al = true ->
    argstructure_fields al s
    = Ok (s ++ String.concat "" (map member_field al)).
Proof.
  induction al as [|a al IH]; intros s H.
  - simpl. now rewrite append_nil_r.
  - simpl in H. apply andb_prop in H. destruct H as [Ha Hl].
    unfold arg_ok in Ha. apply andb_prop in Ha. destruct Ha as [Ha _].
    apply andb_prop in Ha. destruct Ha as [Hc Hn].
    cbn [argstructure_fields map]. rewrite concat_cons_nosep.
    destruct (ct a) as [c|] eqn:Ec; [|discriminate Hc].
    destruct (nm2 a) as [n2|] eqn:En; [|discriminate Hn].
    simpl. rewrite IH by assumption. f_equal.
    unfold member_field. rewrite Ec, En. simpl.
    destruct (String.length c <? 8)%nat, (String.length c <? 16)%nat;
      now rewrite ?append_assoc.
Qed.

Lemma argstructure_spec p :
  forallb arg_ok (args p) = true ->
  argstructure p
  = Ok (nl ++ argstructname p ++ " {" ++ nl
        ++ String.concat "" (map valid_flag_field (filter opt (args p)))
        ++ String.concat "" (map member_field (args p))
        ++ "};" ++ nl).
Proof.
  intros H. unfold argstructure.
  rewrite argstructure_valid_spec by assumption. simpl.
  rewrite argstructure_fields_spec by assumption. simpl.
  now rewrite !append_assoc.
Qed.

(** *** Every signature of a parsed document is as the parser leaves
    signatures *)

Lemma stanzas_ok_snoc l st :
  stanzas_ok l ->
  (forall p, In p (all_protos st) -> proto_ok p) ->
  stanzas_ok (l ++ [st]).
Proof.
  intros Hl Hst x p Hx Hp. apply in_app_or in Hx. destruct Hx as [Hx|[<-|[]]].
  - now apply (Hl x).
  - now apply Hst.
Qed.

Lemma stanzas_ok_append v st :
  stanzas_ok (contents v) ->
  (forall p, In p (all_protos st) -> proto_ok p) ->
  stanzas_ok (contents (contents_append v st)).
Proof.
  intros. unfold contents_append. cbn [contents set_contents].
  now apply stanzas_ok_snoc.
Qed.

Lemma ProtoType_init_ok s tk en r px p en' :
  ProtoType_init s tk en r px = Ok (p, en') -> proto_ok p.
Proof.
  intros H. apply ProtoType_init_args in H. unfold proto_ok. tauto.
Qed.

Lemma Stanza_new_stanzas_ok s k v tk d v' :
  stanzas_ok (contents v) ->
  Stanza_new s k v tk d = Ok v' ->
  stanzas_ok (contents v').
Proof.
  intros Hv H.
  destruct k; unfold Stanza_new in H.
  - unfold ModuleStanza_parse in H. inv_run.
    apply stanzas_ok_append; [exact Hv | intros p []].
  - unfold PrefixStanza_parse in H. inv_run.
    apply stanzas_ok_append; [exact Hv | intros p []].
  - unfold ABIStanza_parse in H. inv_run.
    match goal with
    | |- stanzas_ok (contents (match ?x with _ => _ end)) =>
        destruct x as [[|]|]
    end; (apply stanzas_ok_append; [exact Hv | intros p []]).
  - unfold EventStanza_parse in H. inv_run.
    apply stanzas_ok_append; [exact Hv | intros p []].
  - unfold FunctionStanza_parse in H.
    apply bind_Ok in H. destruct H as [[p en] [E H]].
    apply ProtoType_init_ok in E. inv_run.
    apply stanzas_ok_append; [exact Hv|].
    intros q [<-|[]]. exact E.
  - unfold ObjectStanza_parse in H.
    apply bind_Ok in H. destruct H as [t1 [_ H]].
    destruct (if String.eqb t1 "NULL_OK" then _ else _) as [tk' nok].
    apply bind_Ok in H. destruct H as [[p en] [E H]].
    apply ProtoType_init_ok in E. inv_run.
    apply stanzas_ok_append; [exact Hv|].
    intros q [<-|[<-|[<-|[]]]]; try exact E.
    split; reflexivity.
  - unfold MethodStanza_parse in H.
    destruct (rev (contents v)) as [|p0 before] eqn:Er; [discriminate H|].
    apply bind_Ok in H. destruct H as [? [_ H]].
    apply bind_Ok in H. destruct H as [pp [_ H]].
    apply bind_Ok in H. destruct H as [[pr en] [E H]].
    apply ProtoType_init_ok in E.
    apply bind_Ok in H. destruct H as [? [_ H]].
    apply bind_Ok in H. destruct H as [ms [Em H]].
    injection H as <-. cbn [contents set_contents set_enums].
    assert (Ec : contents v = (rev before ++ [p0])%list)
      by (rewrite <- (rev_involutive (contents v)), Er; reflexivity).
    rewrite Ec in Hv.
    apply stanzas_ok_snoc.
    + intros st0 q Hi. apply Hv. apply in_or_app. now left.
    + intros q Hq.
      assert (In q (all_protos p0) \/ q = set_obj pr (Some ("x" ++ name pp)))
        as [Hq' | ->].
      { unfold all_protos in *. cbn [proto cls methods set_methods] in Hq.
        destruct (methods p0) as [ms0|]; [|discriminate Em].
        injection Em as ->.
        apply in_app_or in Hq. destruct Hq as [Hq|Hq];
          [left; apply in_or_app; now left|].
        apply in_app_or in Hq. destruct Hq as [Hq|Hq];
          [left; apply in_or_app; right; apply in_or_app; now left|].
        rewrite flat_map_app in Hq. apply in_app_or in Hq.
        destruct Hq as [Hq|Hq].
        - left. apply in_or_app. right. apply in_or_app. now right.
        - right. cbn in Hq. destruct Hq as [<-|[]]. reflexivity. }
      * apply (Hv p0); [apply in_or_app; right; now left | exact Hq'].
      * exact E.
  - unfold SynopsisStanza_parse in H. inv_run.
    apply stanzas_ok_append; [exact Hv | intros p []].
  - unfold AliasStanza_parse in H.
    apply bind_Ok in H. destruct H as [? [_ H]].
    apply bind_Ok in H. destruct H as [t1 [_ H]].
    apply bind_Ok in H. destruct H as [? [_ H]].
    apply bind_Ok in H. destruct H as [c [_ H]].
    destruct (Ascii.eqb c "."); inv_run;
      (apply stanzas_ok_append; [exact Hv | intros p []]).
Qed.

Lemma parse_loop_stanzas_ok s :
  forall l v h v' h',
    stanzas_ok (contents v) ->
    parse_loop s l v h = Ok (v', h') ->
    stanzas_ok (contents v').
Proof.
  induction l as [|c l IH]; intros v h v' h' Hv H.
  - cbn in H. now injection H as <- _.
  - cbn [parse_loop] in H.
    apply bind_Ok in H. destruct H as [kw [_ H]].
    apply bind_Ok in H. destruct H as [u [_ H]].
    apply bind_Ok in H. destruct H as [k [_ H]].
    apply bind_Ok in H. destruct H as [v1 [E H]].
    apply Stanza_new_stanzas_ok in E; [|exact Hv].
    now apply IH in H.
Qed.

Lemma vcc_parse_stanzas_ok s f r o b v :
  vcc_parse s (vcc_init f r o) b = Ok v -> stanzas_ok (contents v).
Proof.
  unfold vcc_parse. intros H.
  apply bind_Ok in H. destruct H as [[v1 h] [E H]].
  apply parse_loop_stanzas_ok in E; [|intros st p []].
  injection H as <-. exact E.
Qed.

(** C1.  In a parsed document, take any signature: that of a function,
    of an object (constructor, init or fini) or of a method.  Its
    argstruct flag is set exactly when one of its arguments is
    optional; when it is set, the header text of the signature starts
    with the argument struct, whose members are one validity flag per
    optional argument, in the order of declaration, followed by one
    member per argument, optional or not, in the order of declaration.
    For the arguments [(a, [b], c, [d])] the members are valid_b,
    valid_d, a, b, c, d. *)
Theorem C1_argstruct_field_order :
  (forall s f r o b v st p,
      vcc_parse s (vcc_init f r o) b = Ok v ->
      In st (contents v) ->
      In p (all_protos st) ->
      argstruct p = true ->
      existsb opt (args p) = true
      /\ argstructure p
         = Ok (nl ++ argstructname p ++ " {" ++ nl
               ++ String.concat ""
                    (map valid_flag_field (filter opt (args p)))
               ++ String.concat "" (map member_field (args p))
               ++ "};" ++ nl)
      /\ forall eargs,
           cproto v p eargs Wh
           = (a <- argstructure p ;;
              t <- ProtoType_proto p eargs (cname_pfx v p) ;;
              Ok (a ++ lwrap t)))
  /\ (exists p en',
        ProtoType_init false abcd_toks [] true "" = Ok (p, en')
        /\ argstruct p = true
        /\ argstructure p
           = Ok (nl ++ "struct VARGS(f) {" ++ nl
                 ++ tab ++ "char" ++ tab ++ tab ++ tab ++ "valid_b;" ++ nl
                 ++ tab ++ "char" ++ tab ++ tab ++ tab ++ "valid_d;" ++ nl
                 ++ tab ++ "VCL_INT" ++ tab ++ tab ++ tab ++ "a;" ++ nl
                 ++ tab ++ "VCL_INT" ++ tab ++ tab ++ tab ++ "b;" ++ nl
                 ++ tab ++ "VCL_INT" ++ tab ++ tab ++ tab ++ "c;" ++ nl
                 ++ tab ++ "VCL_INT" ++ tab ++ tab ++ tab ++ "d;" ++ nl
                 ++ "};" ++ nl)).
Proof.
  split.
  - intros s f r o b v st p Hp Hst Hi Hs.
    apply vcc_parse_stanzas_ok in Hp.
    destruct (Hp st p Hst Hi) as [Ha Hf].
    split; [congruence|]. split; [now apply argstructure_spec|].
    intros eargs. unfold cproto. now rewrite Hs.
  - eexists. eexists. split; [vm_compute; reflexivity|].
    split; vm_compute; reflexivity.
Qed.

Lemma C1_argstruct_field_order_witness :
  exists v st p,
    vcc_parse false (vcc_init "vmod.vcc" "." "vcc_if") abcd_doc = Ok v
    /\ In st (contents v)
    /\ In p (all_protos st)
    /\ argstruct p = true
    /\ existsb opt (args p) = true
    /\ argstructure p
       = Ok (nl ++ argstructname p ++ " {" ++ nl
             ++ String.concat ""
                  (map valid_flag_field (filter opt (args p)))
             ++ String.concat "" (map member_field (args p))
             ++ "};" ++ nl).
Proof.
  destruct (vcc_parse false (vcc_init "vmod.vcc" "." "vcc_if") abcd_doc)
    as [v| | |] eqn:E; try (vm_compute in E; discriminate E).
  assert (Hv : exists st p,
             nth_error (contents v) 1 = Some st /\ proto st = Some p
             /\ argstruct p = true).
  { vm_compute in E. injection E as <-.
    eexists. eexists. split; [reflexivity|]. split; reflexivity. }
  destruct Hv as (st & p & Hst & Hp & Hs).
  assert (Hi : In st (contents v)) by (eapply nth_error_In; exact Hst).
  assert (Hq : In p (all_protos st))
    by (unfold all_protos; rewrite Hp; now left).
  exists v, st, p.
  split; [reflexivity|]. split; [exact Hi|]. split; [exact Hq|].
  split; [exact Hs|].
  destruct (proj1 C1_argstruct_field_order false "vmod.vcc" "." "vcc_if"
              abcd_doc v st p E Hi Hq Hs) as (H1 & H2 & _).
  split; [exact H1 | exact H2].
Defined.

(** ** Determinism of the fingerprint and of the protocol blob (C2) *)

(** *** A run that succeeds in strict mode met no defect at all, so it
    runs the same without strict mode. *)

Lemma Stanza_new_strict k v tk d v' :
  Stanza_new true k v tk d = Ok v' -> Stanza_new false k v tk d = Ok v'.
Proof.
  destruct k; try (intros H; exact H).
  - (* $ABI *)
    unfold Stanza_new, ABIStanza_parse.
    destruct (negb (List.length tk =? 2)%nat); [discriminate|].
    destruct (word tk 1) as [t1| | |]; try discriminate.
    cbn [bind when strict_abi set_strict_abi].
    destruct (dict_get [("strict", true); ("vrt", false)] t1);
      [intros H; exact H | discriminate].
  - (* $Synopsis *)
    unfold Stanza_new, SynopsisStanza_parse.
    destruct (negb (List.length tk =? 2)%nat); [discriminate|].
    destruct (word tk 1) as [t1| | |]; try discriminate.
    cbn [bind when auto_synopsis set_auto_synopsis].
    destruct (dict_get [("auto", true); ("manual", false)] t1);
      [intros H; exact H | discriminate].
Qed.

Lemma parse_loop_strict :
  forall l v h r,
    parse_loop true l v h = Ok r -> parse_loop false l v h = Ok r.
Proof.
  induction l as [|c l IH]; intros v h r H; [exact H|].
  cbn [parse_loop] in *.
  apply bind_Ok in H. destruct H as [kw [E1 H]]. rewrite E1. cbn [bind].
  apply bind_Ok in H. destruct H as [u [E2 H]].
  apply when_err_Ok in E2. rewrite E2 in *. cbn [when bind].
  apply bind_Ok in H. destruct H as [k [E3 H]]. rewrite E3. cbn [bind].
  apply bind_Ok in H. destruct H as [v1 [E4 H]].
  apply Stanza_new_strict in E4. rewrite E4. cbn [bind].
  now apply IH.
Qed.

Lemma vcc_parse_strict s v b v' :
  vcc_parse s v b = Ok v' -> vcc_parse false v b = Ok v'.
Proof.
  destruct s; [|intros H; exact H].
  unfold vcc_parse. intros H.
  apply bind_Ok in H. destruct H as [[v1 h] [E H]].
  apply parse_loop_strict in E. now rewrite E.
Qed.

(** *** The file names of the command line are carried along and
    never read. *)

Ltac same_steps :=
  repeat (cbn [bind fmap when];
          match goal with
          | |- Ok _ = Ok _ => reflexivity
          | |- Fatal _ = Fatal _ => reflexivity
          | |- Raise _ = Raise _ => reflexivity
          | |- @NoFuel _ = @NoFuel _ => reflexivity
          | |- context [bind ?m _] => destruct m as [?| ?| ?|]
          | |- context [let '(_, _) := ?x in _] => destruct x
          | |- context [match ?x with (_, _) => _ end] => destruct x
          | |- context [if ?b then _ else _] => destruct b
          | |- context [match ?x with [] => _ | _ :: _ => _ end] => destruct x
          | |- context [match ?x with Some _ => _ | None => _ end] =>
              destruct x
          end);
  cbn [bind fmap when]; try reflexivity.

Lemma Stanza_new_files s k f r o v tk d :
  Stanza_new s k (with_files f r o v) tk d
  = fmap (with_files f r o) (Stanza_new s k v tk d).
Proof.
  destruct v
    as [vf vr vo vsp vct vcr ven vsa vmaj vmin vas vmn vcs vms vmd vfi];
    destruct k; unfold Stanza_new, with_files;
    cbv beta iota delta
      [ModuleStanza_parse PrefixStanza_parse ABIStanza_parse
       EventStanza_parse FunctionStanza_parse ObjectStanza_parse
       MethodStanza_parse SynopsisStanza_parse AliasStanza_parse
       set_module set_sympfx set_strict_abi set_vrt set_auto_synopsis
       set_enums set_contents contents_append
       inputfile rstdir pfx sympfx contents copyright enums strict_abi
       vrt_major vrt_minor auto_synopsis modname csn mansection moddesc
       file_id];
    same_steps.
Qed.

Lemma parse_loop_files s f r o :
  forall l v h,
    parse_loop s l (with_files f r o v) h
    = fmap (fun p => (with_files f r o (fst p), snd p)) (parse_loop s l v h).
Proof.
  induction l as [|c l IH]; intros v h; [reflexivity|].
  cbn [parse_loop].
  destruct (head0 _) as [kw| | |]; try reflexivity. cbn [bind].
  destruct (when _ _) as [u| | |]; try reflexivity. cbn [bind].
  destruct (need_callable _) as [k| | |]; try reflexivity. cbn [bind].
  rewrite Stanza_new_files.
  destruct (Stanza_new s k v _ _) as [v1| | |]; try reflexivity.
  cbn [bind fmap]. apply IH.
Qed.

Lemma vcc_parse_files s f r o v b :
  vcc_parse s (with_files f r o v) b
  = fmap (with_files f r o) (vcc_parse s v b).
Proof.
  unfold vcc_parse.
  change (set_copyright (with_files f r o v) ?x)
    with (with_files f r o (set_copyright v x)).
  rewrite parse_loop_files.
  destruct (parse_loop s _ _ _) as [[v1 h]| | |]; reflexivity.
Qed.

(** The generators read the file names to mention them in what they
    write; whether they run to their end does not depend on them, and
    neither does the side file of [mkcfile]. *)
Ltac destruct_vcc v :=
  destruct v
    as [vf vr vo vsp vct vcr ven vsa vmaj vmin vas vmn vcs vms vmd vfi].

Lemma write_each_ext {A} (f g : A -> result string) l :
  (forall x, f x = g x) -> write_each f l = write_each g l.
Proof.
  intros H. induction l as [|x l IH]; [reflexivity|].
  cbn [write_each]. now rewrite H, IH.
Qed.

Lemma Stanza_rstfile_files s f r o v st man :
  Stanza_rstfile s (with_files f r o v) st man = Stanza_rstfile s v st man.
Proof.
  destruct v
    as [vf vr vo vsp vct vcr ven vsa vmaj vmin vas vmn vcs vms vmd vfi].
  reflexivity.
Qed.

Lemma vcc_rstfile_files s f r o v man :
  void (vcc_rstfile s (with_files f r o v) man) = void (vcc_rstfile s v man).
Proof.
  unfold vcc_rstfile.
  rewrite (write_each_ext _ (fun i => Stanza_rstfile s v i man))
    by (intros x; apply Stanza_rstfile_files).
  destruct v
    as [vf vr vo vsp vct vcr ven vsa vmaj vmin vas vmn vcs vms vmd vfi].
  cbn [with_files modname contents].
  destruct (need_str vmn) as [m| | |]; try reflexivity. cbn [bind].
  destruct (write_each _ vct) as [t| | |]; reflexivity.
Qed.

Lemma Stanza_cstuff_files f r o v st w :
  Stanza_cstuff (with_files f r o v) st w = Stanza_cstuff v st w.
Proof.
  destruct v
    as [vf vr vo vsp vct vcr ven vsa vmaj vmin vas vmn vcs vms vmd vfi].
  reflexivity.
Qed.

Lemma mkhfile_files f r o v :
  void (mkhfile (with_files f r o v)) = void (mkhfile v).
Proof.
  unfold mkhfile.
  rewrite (write_each_ext _ (fun j => Stanza_cstuff v j Wh))
    by (intros x; apply Stanza_cstuff_files).
  destruct v
    as [vf vr vo vsp vct vcr ven vsa vmaj vmin vas vmn vcs vms vmd vfi].
  cbn [with_files contents].
  destruct (write_each _ vct) as [t| | |]; reflexivity.
Qed.

Lemma cstuff_both_files f r o v l :
  cstuff_both (with_files f r o v) l = cstuff_both v l.
Proof.
  induction l as [|i l IH]; [reflexivity|].
  cbn [cstuff_both]. now rewrite !Stanza_cstuff_files, IH.
Qed.

Lemma iter_json_files f r o v fx :
  iter_json (with_files f r o v) fx = iter_json v fx.
Proof.
  destruct v
    as [vf vr vo vsp vct vcr ven vsa vmaj vmin vas vmn vcs vms vmd vfi].
  reflexivity.
Qed.

Lemma json_lines_files f r o v :
  forall l n, json_lines (with_files f r o v) n l = json_lines v n l.
Proof.
  induction l as [|i l IH]; intros n; [reflexivity|].
  cbn [json_lines]. rewrite IH. destruct_vcc v. reflexivity.
Qed.

Lemma vcc_json_files f r o v fx :
  vcc_json (with_files f r o v) fx = vcc_json v fx.
Proof.
  unfold vcc_json. rewrite iter_json_files.
  destruct (iter_json v fx) as [l| | |]; try reflexivity.
  cbn [bind]. now rewrite json_lines_files.
Qed.

Lemma mkcfile_files f r o v :
  fmap snd (mkcfile (with_files f r o v)) = fmap snd (mkcfile v).
Proof.
  unfold mkcfile. rewrite !cstuff_both_files.
  assert (E1 : vcc_cstruct (with_files f r o v) = vcc_cstruct v)
    by (destruct_vcc v; reflexivity).
  assert (E2 : cstruct_init (with_files f r o v) = cstruct_init v)
    by (destruct_vcc v; reflexivity).
  assert (E4 : mkdefs (with_files f r o v) = mkdefs v)
    by (destruct_vcc v; reflexivity).
  assert (E5 : contents (with_files f r o v) = contents v)
    by (destruct_vcc v; reflexivity).
  assert (E6 : csn (with_files f r o v) = csn v) by (destruct_vcc v; reflexivity).
  rewrite E1, E2, E4, E5, E6.
  destruct (cstuff_both v (filter is_ObjectStanza (contents v)))
    as [[oc ox]| | |]; try reflexivity. cbn [bind].
  destruct (cstuff_both v (filter is_FunctionStanza (contents v)))
    as [[fc fx_]| | |]; try reflexivity. cbn [bind].
  destruct (vcc_cstruct v) as [so| | |]; try reflexivity. cbn [bind].
  destruct (need_str (csn v)) as [c| | |]; try reflexivity. cbn [bind].
  destruct (cstruct_init v) as [si| | |]; try reflexivity. cbn [bind].
  rewrite vcc_json_files.
  destruct (vcc_json v _) as [js| | |]; reflexivity.
Qed.

(** The one defect that the generators report through [err] is of the
    warning class; a strict generator that ran to its end met none. *)
Lemma write_each_mono {A} (f g : A -> result string) l t :
  (forall x u, f x = Ok u -> g x = Ok u) ->
  write_each f l = Ok t -> write_each g l = Ok t.
Proof.
  intros H. revert t. induction l as [|x l IH]; intros t E; [exact E|].
  cbn [write_each] in *.
  apply bind_Ok in E. destruct E as [u [E1 E]].
  apply bind_Ok in E. destruct E as [w [E2 E]].
  now rewrite (H x u E1), (IH w E2).
Qed.

Lemma Stanza_rstfile_strict v st man t :
  Stanza_rstfile true v st man = Ok t -> Stanza_rstfile false v st man = Ok t.
Proof.
  unfold Stanza_rstfile.
  destruct (cls st); try (intros H; exact H).
  destruct (0 <? List.length (doc st))%nat; [discriminate | intros H; exact H].
Qed.

Lemma vcc_rstfile_strict s v man t :
  vcc_rstfile s v man = Ok t -> vcc_rstfile false v man = Ok t.
Proof.
  destruct s; [|intros H; exact H].
  unfold vcc_rstfile. intros H.
  apply bind_Ok in H. destruct H as [m [E1 H]]. rewrite E1. cbn [bind].
  apply bind_Ok in H. destruct H as [u [E2 H]].
  rewrite (write_each_mono _ (fun i => Stanza_rstfile false v i man) _ u)
    by (intros x w; apply Stanza_rstfile_strict) || exact E2.
  exact H.
Qed.

Lemma void_Ok {A} (r r' : result A) a :
  void r = void r' -> r = Ok a -> exists a', r' = Ok a'.
Proof.
  intros H ->. destruct r'; try discriminate H. eauto.
Qed.

(** *** The fingerprint is the digest of the canonical lines. *)

Lemma parse_loop_hash s :
  forall l v h v' h',
    parse_loop s l v h = Ok (v', h') ->
    h' = (h ++ flat_map (fun c => utf8_encode (canonical_line c)) l)%list.
Proof.
  induction l as [|c l IH]; intros v h v' h' H.
  - cbn in H. injection H as _ <-. now rewrite app_nil_r.
  - cbn [parse_loop] in H.
    apply bind_Ok in H. destruct H as [kw [_ H]].
    apply bind_Ok in H. destruct H as [u [_ H]].
    apply bind_Ok in H. destruct H as [k [_ H]].
    apply bind_Ok in H. destruct H as [v1 [_ H]].
    apply IH in H. subst h'. cbn [flat_map]. now rewrite app_assoc.
Qed.

Lemma vcc_parse_file_id s v b v' :
  vcc_parse s v b = Ok v' ->
  file_id v' = Some (SHA256.hexdigest (fingerprint_input b)).
Proof.
  unfold vcc_parse. intros H.
  apply bind_Ok in H. destruct H as [[v1 h] [E H]].
  apply parse_loop_hash in E. injection H as <-. subst h. reflexivity.
Qed.

(** Every successful run is the run without strict mode and with empty
    file names. *)
Lemma run_canonical s f r o b out :
  run s f r o b = Ok out -> run false "" "" "" b = Ok out.
Proof.
  unfold run. intros H.
  apply bind_Ok in H. destruct H as [v [E H]].
  change (vcc_init f r o) with (with_files f r o (vcc_init "" "" "")) in E.
  rewrite vcc_parse_files in E.
  destruct (vcc_parse s (vcc_init "" "" "") b) as [v0| | |] eqn:E0;
    try discriminate E.
  cbn in E. injection E as <-.
  apply vcc_parse_strict in E0. rewrite E0. cbn [bind].
  apply bind_Ok in H. destruct H as [t1 [R1 H]].
  apply bind_Ok in H. destruct H as [t2 [R2 H]].
  apply bind_Ok in H. destruct H as [th [Hh H]].
  apply bind_Ok in H. destruct H as [[c fx] [Hc H]].
  apply bind_Ok in H. destruct H as [blob [Hb H]].
  injection H as <-.
  apply vcc_rstfile_strict in R1, R2.
  destruct (void_Ok _ _ _ (vcc_rstfile_files false f r o v0 false) R1)
    as (t1' & ->).
  destruct (void_Ok _ _ _ (vcc_rstfile_files false f r o v0 true) R2)
    as (t2' & ->).
  destruct (void_Ok _ _ _ (mkhfile_files f r o v0) Hh) as (th' & ->).
  cbn [bind].
  pose proof (mkcfile_files f r o v0) as K. rewrite Hc in K. cbn [fmap snd] in K.
  destruct (mkcfile v0) as [[c' fx']| | |]; try discriminate K.
  cbn [fmap snd] in K. injection K as ->. cbn [bind].
  rewrite iter_json_files in Hb. rewrite Hb. cbn [bind].
  destruct v0
    as [vf vr vo vsp vct vcr ven vsa vmaj vmin vas vmn vcs vms vmd vfi].
  reflexivity.
Qed.

(** C2.  Two runs on the same text that both succeed, whatever the
    strictness flag, the name of the input file, the output prefix and
    the documentation directory of each, give the same fingerprint and
    the same protocol blob; the fingerprint is the hexadecimal SHA-256
    digest of the canonical lines of the declarations (sigil, tokens
    joined by one space, newline), in declaration order. *)
Theorem C2_run_deterministic :
  forall s1 f1 r1 o1 s2 f2 r2 o2 b out1 out2,
    run s1 f1 r1 o1 b = Ok out1 ->
    run s2 f2 r2 o2 b = Ok out2 ->
    out1 = out2
    /\ fst out1 = Some (SHA256.hexdigest (fingerprint_input b)).
Proof.
  intros s1 f1 r1 o1 s2 f2 r2 o2 b out1 out2 H1 H2.
  split.
  - apply run_canonical in H1. apply run_canonical in H2. congruence.
  - unfold run in H1.
    apply bind_Ok in H1. destruct H1 as [v [E H1]].
    apply bind_Ok in H1. destruct H1 as [t1 [_ H1]].
    apply bind_Ok in H1. destruct H1 as [t2 [_ H1]].
    apply bind_Ok in H1. destruct H1 as [th [_ H1]].
    apply bind_Ok in H1. destruct H1 as [[c fx] [_ H1]].
    apply bind_Ok in H1. destruct H1 as [bl [_ H1]].
    injection H1 as <-. cbn [fst]. now apply vcc_parse_file_id in E.
Qed.

Lemma C2_run_deterministic_witness :
  exists out1 out2,
    run true "a/vmod.vcc" "doc" "vcc_if" is_even_doc = Ok out1
    /\ run false "vmod_m.vcc" "." "out" is_even_doc = Ok out2
    /\ out1 = out2
    /\ fst out1 = Some (SHA256.hexdigest (fingerprint_input is_even_doc)).
Proof.
  destruct (run true "a/vmod.vcc" "doc" "vcc_if" is_even_doc)
    as [out1| | |] eqn:E1; try (vm_compute in E1; discriminate E1).
  destruct (run false "vmod_m.vcc" "." "out" is_even_doc)
    as [out2| | |] eqn:E2; try (vm_compute in E2; discriminate E2).
  exists out1, out2.
  split; [reflexivity|]. split; [reflexivity|].
  exact (C2_run_deterministic _ _ _ _ _ _ _ _ _ _ _ E1 E2).
Defined.

(** ** The init and fini entries of an object (C3) *)

(** The init entry of [$Object foo(STRING s)] takes three implicit
    arguments before the declared one, not two. *)
Lemma C3_init_two_implicit_counterexample :
  exists ll declared,
    foo_init_arglist = Ok (ll, declared)
    /\ ll = [Some "VRT_CTX"; Some "struct VPFX(m_foo) **";
             Some "const char *"; Some "VCL_STRING"]
    /\ declared = [Some "VCL_STRING"]
    /\ ~ (exists a b, ll = a :: b :: declared).
Proof.
  eexists. eexists. split; [vm_compute; reflexivity|].
  split; [reflexivity|]. split; [reflexivity|].
  intros [a [b H]]. discriminate H.
Qed.

Lemma ObjectStanza_parse_shape s v tk d v' :
  ObjectStanza_parse s v tk d = Ok v' ->
  exists st i f p,
    contents v' = (contents v ++ [st])%list
    /\ cls st = ObjectStanza i f
    /\ proto st = Some p
    /\ methods st = Some []
    /\ i = set_name p (name p ++ "__init")
    /\ f = set_args (set_argstruct (set_name p (name p ++ "__fini")) false) [].
Proof.
  unfold ObjectStanza_parse. intros H.
  apply bind_Ok in H. destruct H as [t1 [_ H]].
  destruct (if String.eqb t1 "NULL_OK" then _ else _) as [tk' nok].
  apply bind_Ok in H. destruct H as [[p en] [_ H]].
  injection H as <-.
  eexists. eexists. eexists. eexists.
  split; [reflexivity|]. split; [reflexivity|]. split; [reflexivity|].
  split; [reflexivity|]. split; reflexivity.
Qed.

(** C3 as the code has it.  An accepted [$Object] declaration adds one
    stanza that carries, besides the constructor signature, exactly the
    two synthesized signatures init and fini.  Fini has no declared
    argument and its native argument list is the one implicit handle.
    Init has the declared arguments, and its native argument list is
    three implicit leading arguments (context, handle, instance name)
    followed by the native types of the declared arguments, or by one
    pointer to the argument struct when the argstruct flag is set. *)
Theorem C3_object_init_fini :
  forall s v tk d v',
    ObjectStanza_parse s v tk d = Ok v' ->
    exists st i f p,
      contents v' = (contents v ++ [st])%list
      /\ cls st = ObjectStanza i f
      /\ proto st = Some p
      /\ name i = name p ++ "__init"
      /\ name f = name p ++ "__fini"
      /\ args f = [] /\ argstruct f = false
      /\ (forall sn,
             proto_ll f (fini_eargs sn) = [Some ("struct " ++ sn ++ " **")])
      /\ args i = args p /\ argstruct i = argstruct p
      /\ (forall sn,
             proto_ll i (init_eargs sn)
             = Some "VRT_CTX" :: Some ("struct " ++ sn ++ " **")
               :: Some "const char *"
               :: (if argstruct p
                   then [Some (argstructname i ++ "*")]
                   else map ct (args p))).
Proof.
  intros s v tk d v' H.
  apply ObjectStanza_parse_shape in H.
  destruct H as (st & i & f & p & H1 & H2 & H3 & _ & -> & ->).
  exists st, (set_name p (name p ++ "__init")),
    (set_args (set_argstruct (set_name p (name p ++ "__fini")) false) []), p.
  repeat (split; [first [assumption | reflexivity]|]).
  intros sn. unfold proto_ll. cbn [argstruct set_name args].
  destruct (argstruct p); reflexivity.
Qed.

Lemma C3_object_init_fini_witness :
  exists v',
    ObjectStanza_parse false (vcc_init "foo.vcc" "." "vcc_if")
      (tokenize "Object foo(STRING s)") "" = Ok v'
    /\ exists st i f p,
      contents v' = (contents (vcc_init "foo.vcc" "." "vcc_if") ++ [st])%list
      /\ cls st = ObjectStanza i f
      /\ proto st = Some p
      /\ name i = name p ++ "__init"
      /\ name f = name p ++ "__fini"
      /\ args f = [] /\ argstruct f = false
      /\ (forall sn,
             proto_ll f (fini_eargs sn) = [Some ("struct " ++ sn ++ " **")])
      /\ args i = args p /\ argstruct i = argstruct p
      /\ (forall sn,
             proto_ll i (init_eargs sn)
             = Some "VRT_CTX" :: Some ("struct " ++ sn ++ " **")
               :: Some "const char *"
               :: (if argstruct p
                   then [Some (argstructname i ++ "*")]
                   else map ct (args p))).
Proof.
  destruct (ObjectStanza_parse false (vcc_init "foo.vcc" "." "vcc_if")
              (tokenize "Object foo(STRING s)") "") as [v'| | |] eqn:E;
    try (vm_compute in E; discriminate E).
  exists v'. split; [reflexivity|].
  exact (C3_object_init_fini _ _ _ _ _ E).
Defined.

(** ** The protocol entry of a function (C4) *)

Lemma pop_None_rev_snoc x :
  is_JNull x = false ->
  forall r, exists r' k,
    pop_None_rev (r ++ [x]) = Ok r'
    /\ (r ++ [x] = repeat JNull k ++ r')%list
    /\ is_JNull (hd JNull r') = false.
Proof.
  intros Hx. induction r as [|y r IH].
  - exists [x], 0. destruct x; try discriminate Hx; simpl; auto.
  - destruct IH as (r' & k & E & E' & N).
    destruct y;
      try (eexists; exists 0; split; [reflexivity|]; split; reflexivity).
    exists r', (S k). simpl. rewrite E, E'. auto.
Qed.

Lemma rev_repeat {A} (x : A) k : rev (repeat x k) = repeat x k.
Proof.
  induction k as [|k IH]; [reflexivity|].
  simpl. rewrite IH. clear IH.
  induction k as [|k IH]; [reflexivity|]. simpl. now rewrite IH.
Qed.

Lemma last_rev_hd {A} (l : list A) (d : A) : List.last (rev l) d = hd d l.
Proof.
  destruct l as [|x l]; [reflexivity|]. simpl. now rewrite last_last.
Qed.

(** Trimming succeeds on a list that starts with a string, and removes
    exactly the trailing nulls. *)
Lemma pop_None_trimmed x l :
  is_JNull x = false ->
  exists l', pop_None (x :: l) = Ok l' /\ trimmed (x :: l) l'.
Proof.
  intros Hx. unfold pop_None. cbn [rev].
  destruct (pop_None_rev_snoc x Hx (rev l)) as (r' & k & E & E' & N).
  rewrite E. cbn [bind]. exists (rev r'). split; [reflexivity|].
  split.
  - exists k.
    assert (R : rev (rev l ++ [x]) = rev (repeat JNull k ++ r'))
      by now rewrite E'.
    rewrite rev_app_distr, rev_involutive in R. simpl in R.
    now rewrite R, rev_app_distr, rev_repeat.
  - now rewrite last_rev_hd.
Qed.

Lemma arg_jsonproto_trimmed a :
  exists l, arg_jsonproto a = Ok (JList l) /\ trimmed (full_tuple a) l.
Proof.
  unfold arg_jsonproto.
  destruct (pop_None_trimmed (JStr (vt a))
              ([json_opt_str (nm a); json_opt_str (defval a);
                json_opt_list (spec a)]
               ++ (if opt a then [JBool true] else []))%list eq_refl)
    as (l & E & T).
  exists l. split; [|exact T].
  destruct (opt a); cbn [app] in *; now rewrite E.
Qed.

Lemma collect_arg_jsonproto al :
  exists ll,
    collect arg_jsonproto al = Ok (map JList ll)
    /\ Forall2 (fun a l => trimmed (full_tuple a) l) al ll.
Proof.
  induction al as [|a al (ll & E & F)].
  - exists []. split; [reflexivity | constructor].
  - destruct (arg_jsonproto_trimmed a) as (l & Ea & T).
    exists (l :: ll). cbn [collect map]. rewrite Ea, E. cbn [bind].
    split; [reflexivity | now constructor].
Qed.

(** C4.  The protocol entry of a function stanza is one array tagged
    [$FUNC] that carries the name, the return kind and, for each
    argument in order, the fields kind, name, default, enum literals
    and (when set) optional flag, without their trailing nulls.  For
    [BOOL is_even(INT n)] the argument array is ["INT", "n"]. *)
Theorem C4_function_entry :
  (forall v st p,
      cls st = FunctionStanza ->
      proto st = Some p ->
      exists ll,
        Stanza_json v st
        = Ok [JList [JStr "$FUNC"; JStr (name p);
                     JList (JList [JStr (vt (retval p))]
                            :: JStr (str (csn v) ++ "." ++ cname p)
                            :: JStr (if argstruct p
                                     then "struct arg_" ++ sympfx v
                                          ++ str (modname v) ++ "_" ++ cname p
                                     else "")
                            :: map JList ll)]]
        /\ Forall2 (fun a l => trimmed (full_tuple a) l) (args p) ll)
  /\ is_even_entry
     = Ok [JList [JStr "$FUNC"; JStr "is_even";
                  JList [JList [JStr "BOOL"];
                         JStr "Vmod_vmod_m_Func.is_even"; JStr "";
                         JList [JStr "INT"; JStr "n"]]]].
Proof.
  split; [|vm_compute; reflexivity].
  intros v st p Hc Hp.
  destruct (collect_arg_jsonproto (args p)) as (ll & E & F).
  exists ll. split; [|exact F].
  unfold Stanza_json. rewrite Hc, Hp. cbn [need_obj bind].
  unfold ProtoType_jsonproto, CType_jsonproto.
  cbn [pop_None rev app pop_None_rev bind]. rewrite E. cbn [bind].
  destruct (argstruct p); reflexivity.
Qed.

Lemma C4_function_entry_witness :
  exists ll,
    Stanza_json (vcc_init "vmod.vcc" "." "vcc_if")
      (mkStanza FunctionStanza [] [] None false None
         (Some (mkProtoType None [] false
                  (mkCType None None None false "BOOL" (Some "VCL_BOOL") None)
                  "f" "f")))
    = Ok [JList [JStr "$FUNC"; JStr "f";
                 JList (JList [JStr "BOOL"] :: JStr "None.f" :: JStr ""
                        :: map JList ll)]]
    /\ Forall2 (fun a l => trimmed (full_tuple a) l) [] ll.
Proof.
  exact (proj1 C4_function_entry (vcc_init "vmod.vcc" "." "vcc_if")
           (mkStanza FunctionStanza [] [] None false None
              (Some (mkProtoType None [] false
                       (mkCType None None None false "BOOL" (Some "VCL_BOOL")
                          None) "f" "f")))
           _ eq_refl eq_refl).
Defined.

(** ** Alias resolution (C5) *)




Lemma re_alias_nonempty a : re_alias a = true -> a <> "".
Proof. intros H ->. discriminate H. Qed.






(** ** An invalid ABI mode (C6) *)

(** Without strict mode the run on [bogus_abi_doc] succeeds. *)
Lemma C6_invalid_abi_counterexample :
  exists out v,
    run false "vmod.vcc" "." "vcc_if" bogus_abi_doc = Ok out
    /\ vcc_parse false (vcc_init "vmod.vcc" "." "vcc_if") bogus_abi_doc = Ok v
    /\ strict_abi v = None
    /\ vrt_major v = "VRT_MAJOR_VERSION".
Proof.
  eexists. eexists. split; [vm_compute; reflexivity|].
  split; [vm_compute; reflexivity|]. split; reflexivity.
Qed.

Lemma abi_modes_get t :
  t <> "strict" -> t <> "vrt" ->
  dict_get [("strict", true); ("vrt", false)] t = None.
Proof.
  intros H1 H2. cbn [dict_get].
  rewrite (proj2 (String.eqb_neq "strict" t)) by congruence.
  rewrite (proj2 (String.eqb_neq "vrt" t)) by congruence.
  reflexivity.
Qed.

Lemma ABIStanza_parse_invalid v kw t d :
  t <> "strict" -> t <> "vrt" ->
  ABIStanza_parse true v [kw; t] d = Fatal (abi_msg t)
  /\ ABIStanza_parse false v [kw; t] d
     = Ok (set_vrt (contents_append (set_strict_abi v None)
                      (Stanza_init ABIStanza [kw; t] d))
             "VRT_MAJOR_VERSION" "VRT_MINOR_VERSION").
Proof.
  intros H1 H2. unfold ABIStanza_parse.
  cbn [List.length Nat.eqb negb when bind word nth_error].
  rewrite (abi_modes_get t H1 H2). split; reflexivity.
Qed.

(** C6 as the code has it.  An [$ABI] declaration whose mode is neither
    [strict] nor [vrt] is a defect of the warning class: it is fatal
    when the run is strict, and so is every strict run on a document
    that has such a declaration; without strict mode the declaration is
    accepted, the ABI flag is left unset and the version numbers become
    the symbolic placeholders. *)
Theorem C6_invalid_abi_mode :
  forall t,
    t <> "strict" -> t <> "vrt" ->
    (forall v kw d,
        ABIStanza_parse true v [kw; t] d = Fatal (abi_msg t)
        /\ ABIStanza_parse false v [kw; t] d
           = Ok (set_vrt (contents_append (set_strict_abi v None)
                            (Stanza_init ABIStanza [kw; t] d))
                   "VRT_MAJOR_VERSION" "VRT_MINOR_VERSION"))
    /\ (forall before c after v h,
           tokenize (fst (split_stanza c "")) = ["ABI"; t] ->
           is_ok (parse_loop true (before ++ c :: after) v h) = false).
Proof.
  intros t H1 H2. split.
  - intros v kw d. now apply ABIStanza_parse_invalid.
  - induction before as [|b before IH]; intros c after v h Hc.
    + cbn [app parse_loop]. rewrite Hc.
      cbn [head0 bind dict_get DISPATCH String.eqb Ascii.eqb Bool.eqb when
             need_callable Stanza_new].
      rewrite (proj1 (ABIStanza_parse_invalid v "ABI" t _ H1 H2)).
      reflexivity.
    + cbn [app parse_loop].
      destruct (head0 _) as [kw| | |]; try reflexivity. cbn [bind].
      destruct (when _ _) as [u| | |]; try reflexivity. cbn [bind].
      destruct (need_callable _) as [k| | |]; try reflexivity. cbn [bind].
      destruct (Stanza_new true k v _ _) as [v1| | |]; try reflexivity.
      cbn [bind]. now apply IH.
Qed.

Lemma C6_invalid_abi_mode_witness :
  ABIStanza_parse true (vcc_init "vmod.vcc" "." "vcc_if") ["ABI"; "bogus"] ""
  = Fatal (abi_msg "bogus")
  /\ ABIStanza_parse false (vcc_init "vmod.vcc" "." "vcc_if")
       ["ABI"; "bogus"] ""
     = Ok (set_vrt (contents_append
                      (set_strict_abi (vcc_init "vmod.vcc" "." "vcc_if") None)
                      (Stanza_init ABIStanza ["ABI"; "bogus"] ""))
             "VRT_MAJOR_VERSION" "VRT_MINOR_VERSION").
Proof.
  refine (proj1 (C6_invalid_abi_mode "bogus" _ _)
            (vcc_init "vmod.vcc" "." "vcc_if") "ABI" "");
    discriminate.
Defined.

(** ** Repeated $Prefix and $ABI declarations (C7) *)

(** Even a strict run accepts [twice_doc]; the later declarations
    win. *)
Lemma C7_redeclaration_counterexample :
  exists out v,
    run true "vmod.vcc" "." "vcc_if" twice_doc = Ok out
    /\ vcc_parse true (vcc_init "vmod.vcc" "." "vcc_if") twice_doc = Ok v
    /\ sympfx v = "two_"
    /\ strict_abi v = Some true
    /\ List.length (contents v) = 5.
Proof.
  eexists. eexists. split; [vm_compute; reflexivity|].
  split; [vm_compute; reflexivity|]. repeat split; reflexivity.
Qed.

(** C7 as the code has it.  Neither handler looks at what was declared
    before: a [$Prefix] declaration with one argument is accepted in
    every context and sets the symbol prefix to its argument followed
    by an underscore, and an [$ABI] declaration with a valid mode is
    accepted in every context and sets the ABI flag; so of two
    declarations the second one decides. *)
Theorem C7_redeclaration_accepted :
  (forall s v kw t d,
      PrefixStanza_parse s v [kw; t] d
      = Ok (contents_append (set_sympfx v (t ++ "_"))
              (Stanza_init PrefixStanza [kw; t] d)))
  /\ (forall s v kw d,
         ABIStanza_parse s v [kw; "strict"] d
         = Ok (contents_append (set_strict_abi v (Some true))
                 (Stanza_init ABIStanza [kw; "strict"] d)))
  /\ (forall s v kw d,
         exists v',
           ABIStanza_parse s v [kw; "vrt"] d = Ok v'
           /\ strict_abi v' = Some false)
  /\ (forall s v kw1 t1 d1 kw2 t2 d2,
         exists v',
           (v1 <- PrefixStanza_parse s v [kw1; t1] d1 ;;
            PrefixStanza_parse s v1 [kw2; t2] d2) = Ok v'
           /\ sympfx v' = t2 ++ "_")
  /\ (forall s v kw1 d1 kw2 d2,
         exists v',
           (v1 <- ABIStanza_parse s v [kw1; "vrt"] d1 ;;
            ABIStanza_parse s v1 [kw2; "strict"] d2) = Ok v'
           /\ strict_abi v' = Some true).
Proof.
  repeat split.
  - intros s v kw d. eexists. split; reflexivity.
  - intros s v kw1 t1 d1 kw2 t2 d2. eexists. split; reflexivity.
  - intros s v kw1 d1 kw2 d2. eexists. split; reflexivity.
Qed.

(** ** The place of the $Module declaration (C8) *)





(** *** The parser reads neither the module attributes nor the labels *)











(** *** The module name of a parsed document *)








(** ** What an alias can resolve to (C9) *)









(** ** Quoted tokens and the empty quoted literal (C10) *)

Lemma is_quote_char_spec c :
  is_quote_char c = true <-> c = "034"%char \/ c = "'"%char.
Proof.
  unfold is_quote_char. rewrite orb_true_iff, !Ascii.eqb_eq. tauto.
Qed.

Lemma is_quoted_spec txt :
  is_quoted txt = true
  <-> 3 <= String.length txt
      /\ exists c, first txt = Some c /\ last txt = Some c
                   /\ (c = "034"%char \/ c = "'"%char).
Proof.
  unfold is_quoted. rewrite andb_true_iff, Nat.ltb_lt. split.
  - intros [Hl H]. split; [lia|].
    destruct (first txt) as [a|]; [|discriminate H].
    destruct (last txt) as [b|]; [|discriminate H].
    apply andb_prop in H. destruct H as [E Q].
    apply Ascii.eqb_eq in E. subst b. apply is_quote_char_spec in Q.
    now exists a.
  - intros [Hl (c & -> & -> & Q)]. split; [lia|].
    rewrite Ascii.eqb_refl. now apply is_quote_char_spec.
Qed.

Lemma add_spec_loop_verbatim x rest sp en :
  is_quoted x = false ->
  x <> "" ->
  add_spec_loop (x :: "}" :: rest) sp en
  = Ok ((sp ++ [x])%list, dict_add en x, rest).
Proof.
  intros Hq Hx. cbn [add_spec_loop]. rewrite Hq. cbn [bind].
  rewrite (proj2 (String.eqb_neq x "") Hx). reflexivity.
Qed.

(** The default of an enum argument that is not a quoted token is
    stored as it is. *)
Lemma arg_init_enum_default s n x e rest names en :
  is_quoted x = false ->
  n <> "{" -> n <> e -> e <> "=" ->
  dict_mem names n = false ->
  arg_init s ("ENUM" :: n :: "=" :: x :: rest) names en e
  = Ok (mkCType (Some n) (Some x) None false "ENUM" (Some "VCL_ENUM") None,
        rest, dict_add names n, en).
Proof.
  intros Hq H1 H2 H3 Hm.
  unfold arg_init, CType_init. cbn [pop0 bind].
  change (dict_get CTYPES "ENUM") with (Some "VCL_ENUM").
  cbn [ct when bind].
  rewrite (proj2 (String.eqb_neq n "{") H1). cbn [bind head0].
  rewrite (proj2 (String.eqb_neq n e) H2). cbn [pop0 bind].
  rewrite Hm. cbn [when bind head0].
  rewrite (proj2 (String.eqb_neq "=" e)) by congruence.
  cbn [pop0 bind]. rewrite String.eqb_refl. cbn [negb when bind pop0].
  cbn [vt set_nm]. rewrite String.eqb_refl, Hq. reflexivity.
Qed.

(** C10.  A token is quoted exactly when it has at least three
    characters and its first and last characters are the same quote
    character.  So the token made of two double quotes, which the
    tokenizer yields as one token, is not quoted: as an enum literal it
    is kept as it is and registered with its quote characters, and as
    the default of an enum argument it is stored with them. *)
Theorem C10_empty_quoted_literal :
  (forall txt,
      is_quoted txt = true
      <-> 3 <= String.length txt
          /\ exists c, first txt = Some c /\ last txt = Some c
                       /\ (c = "034"%char \/ c = "'"%char))
  /\ tokenize empty_literal = [empty_literal]
  /\ is_quoted empty_literal = false
  /\ is_quoted (sq ++ sq) = false
  /\ (forall rest sp en,
         add_spec_loop (empty_literal :: "}" :: rest) sp en
         = Ok ((sp ++ [empty_literal])%list, dict_add en empty_literal, rest))
  /\ (forall s n e rest names en,
         n <> "{" -> n <> e -> e <> "=" ->
         dict_mem names n = false ->
         arg_init s ("ENUM" :: n :: "=" :: empty_literal :: rest) names en e
         = Ok (mkCType (Some n) (Some empty_literal) None false "ENUM"
                 (Some "VCL_ENUM") None,
               rest, dict_add names n, en))
  /\ (exists p en,
         ProtoType_init false empty_literal_toks [] true "" = Ok (p, en)
         /\ map spec (args p) = [Some [empty_literal; "a"]]
         /\ map defval (args p) = [Some empty_literal]
         /\ en = [empty_literal; "a"]).
Proof.
  split; [exact is_quoted_spec|].
  split; [reflexivity|]. split; [reflexivity|]. split; [reflexivity|].
  split; [|split].
  - intros rest sp en. now apply add_spec_loop_verbatim.
  - intros s n e rest names en H1 H2 H3 Hm.
    now apply arg_init_enum_default.
  - eexists. eexists. split; [vm_compute; reflexivity|].
    repeat split; reflexivity.
Qed.

Lemma C10_empty_quoted_literal_witness :
  arg_init false ("ENUM" :: "e" :: "=" :: empty_literal :: [","]) [] [] ","
  = Ok (mkCType (Some "e") (Some empty_literal) None false "ENUM"
          (Some "VCL_ENUM") None,
        [","], dict_add [] "e", []).
Proof.
  refine (proj1 (proj2 (proj2 (proj2 (proj2 (proj2
            C10_empty_quoted_literal)))))
            false "e" "," [","] [] [] _ _ _ eq_refl); discriminate.
Defined.

(** * Sanity checks of the embedding on concrete inputs *)

Example tokenize_ex :
  tokenize ("Function BOOL is_even(INT n, [ENUM {a, " ++ dq ++ "b c" ++ dq
            ++ "} e='x y'])")
  = ["Function"; "BOOL"; "is_even"; "("; "INT"; "n"; ","; "["; "ENUM"; "{";
     "a"; ","; dq ++ "b c" ++ dq; "}"; "e"; "="; "'x y'"; "]"; ")"].
Proof. reflexivity. Qed.

Example fmt_cstruct_ex :
  fmt_cstruct "vmod_event_f" "*_event;"
  = tab ++ "vmod_event_f" ++ tab ++ tab ++ tab ++ "*_event;" ++ nl.
Proof. reflexivity. Qed.

Example lwrap_ex :
  lwrap_width "VCL_VOID f(VRT_CTX, VCL_INT, VCL_INT);" 20
  = "VCL_VOID f(VRT_CTX," ++ nl ++ "    VCL_INT, VCL_INT);" ++ nl.
Proof. reflexivity. Qed.

Example sha256_abc :
  SHA256.hexdigest (utf8_encode "abc")
  = "ba7816bf8f01cfea414140de5dae2223b00361a396177a9cb410ff61f20015ad".
Proof. vm_compute. reflexivity. Qed.

Example sha256_two_blocks :
  SHA256.hexdigest
    (utf8_encode "abcdbcdecdefdefgefghfghighijhijkijkljklmklmnlmnomnopnopq")
  = "248d6a61d20638b8e5c026930c3e6039a33ce45964ff2167f6ecedd419db06c1".
Proof. vm_compute. reflexivity. Qed.

Example json_dumps_ex :
  Json.dumps (JList [JList [JStr "$EVENT"; JNull];
                     JDict [("NULL_OK", JBool true)]; JList []])
  = "[" ++ nl
    ++ "  [" ++ nl
    ++ "    " ++ dq ++ "$EVENT" ++ dq ++ "," ++ nl
    ++ "    null" ++ nl
    ++ "  ]," ++ nl
    ++ "  {" ++ nl
    ++ "    " ++ dq ++ "NULL_OK" ++ dq ++ ": true" ++ nl
    ++ "  }," ++ nl
    ++ "  []" ++ nl
    ++ "]".
Proof. vm_compute. reflexivity. Qed.

Example split_stanza_ex :
  split_stanza ("Function VOID f(INT a," ++ nl ++ tab ++ "INT b)" ++ nl
                ++ nl ++ "Text" ++ nl) ""
  = ("Function VOID f(INT a," ++ nl ++ tab ++ "INT b)", nl ++ "Text" ++ nl).
Proof. reflexivity. Qed.

Example is_even_file_id :
  fmap file_id
    (vcc_parse false (vcc_init "vmod.vcc" "." "vcc_if") is_even_doc)
  = Ok (Some
          "b4e09e690de5e7e4866dea2d8226628731d01d42c2a018deca646b419792693e").
Proof. vm_compute. reflexivity. Qed.

Example is_even_blob_head :
  fmap (firstn 7) (fmap snd (run false "vmod.vcc" "." "vcc_if" is_even_doc))
  = Ok ["[ "; "  [ ";
        "    " ++ dq ++ "$VMOD" ++ dq ++ ", ";
        "    " ++ dq ++ "1.0" ++ dq ++ ", ";
        "    " ++ dq ++ "m" ++ dq ++ ", ";
        "    " ++ dq ++ "Vmod_vmod_m_Func" ++ dq ++ ", ";
        "    " ++ dq
        ++ "b4e09e690de5e7e4866dea2d8226628731d01d42c2a018deca646b419792693e"
        ++ dq ++ " "].
Proof. vm_compute. reflexivity. Qed.

Example foo_header :
  (v <- vcc_parse false (vcc_init "foo.vcc" "." "vcc_if") foo_doc ;;
   st <- need_obj (nth_error (contents v) 1) ;;
   Stanza_cstuff v st Wh)
  = Ok ("struct VPFX(m_foo);" ++ nl
        ++ "VCL_VOID vmod_foo__init(VRT_CTX, struct VPFX(m_foo) **," ++ nl
        ++ "    const char *, VCL_STRING);" ++ nl
        ++ "VCL_VOID vmod_foo__fini(struct VPFX(m_foo) **);" ++ nl
        ++ nl).
Proof. vm_compute. reflexivity. Qed.

Example method_needs_object :
  vcc_parse false (vcc_init "vmod.vcc" "." "vcc_if")
    (is_even_doc ++ "$Method VOID .m()" ++ nl)
  = Raise AssertionError.
Proof. vm_compute. reflexivity. Qed.

Example unknown_stanza :
  vcc_parse false (vcc_init "vmod.vcc" "." "vcc_if")
    (is_even_doc ++ "$Bogus x" ++ nl)
  = Fatal "Unknown stanza $Bogus".
Proof. vm_compute. reflexivity. Qed.
